(** * open62541 node-set tools: extract_typedictionary and the data-type extractor

  A shallow embedding of the two stand-alone Go programs under [tools/]:
  the TypeDictionary extractor (one [UAVariable], base64 payload written to
  a file) and the data-type extractor (one CSV line per [UADataType]).

  Go strings are byte sequences; they are modelled by [string] (a list of
  8-bit [ascii] characters).  The pieces of Go's standard library that the
  programs call ([strings], [regexp] on three fixed patterns, [os] files,
  [encoding/xml]'s pull decoder, [encoding/base64]) are modelled in the
  modules [GoStrings], [Os], [Xml] and [Base64] from their documented
  behaviour; the programs themselves are in [ExtractTypedictionary] and
  [ExtractDatatypes]. *)

From Stdlib Require Import Bool Arith NArith List Ascii String Lia.
Import ListNotations.
Open Scope string_scope.
Set Warnings "-register-all".

(** ** Strings as Go sees them *)

Module GoStrings.

(** The double quote and the line feed, by their codes. *)
Definition dquote : ascii := "034"%char.
Definition newline : ascii := "010"%char.
Definition carriage_return : ascii := "013"%char.
Definition comma : ascii := ","%char.

(** [q] is the one-character string holding a double quote. *)
Definition q : string := String dquote "".
Definition nl : string := String newline "".

(** [strings.ContainsRune(s, r)] for an ASCII rune [r]: an ASCII byte never
    occurs inside a multi-byte UTF-8 sequence, so the byte search is exact. *)
Fixpoint ContainsRune (s : string) (r : ascii) : bool :=
  match s with
  | EmptyString => false
  | String c s' => Ascii.eqb c r || ContainsRune s' r
  end.

(** [strings.Replace(s, old, new, -1)] where [old] is a single byte. *)
Fixpoint Replace (s : string) (old : ascii) (new : string) : string :=
  match s with
  | EmptyString => EmptyString
  | String c s' =>
      if Ascii.eqb c old then new ++ Replace s' old new
      else String c (Replace s' old new)
  end.

(** [fmt.Sprintf] with the format that puts [%s] between two double quotes. *)
Definition Sprintf_quoted (s : string) : string := q ++ s ++ q.

Definition between (lo hi : nat) (c : ascii) : bool :=
  Nat.leb lo (nat_of_ascii c) && Nat.leb (nat_of_ascii c) hi.

(** The class [[0-9]]. *)
Definition is_digit (c : ascii) : bool := between 48 57 c.

(** The class [\w] of Go's regexp syntax: [[0-9A-Za-z_]] (ASCII only). *)
Definition is_word (c : ascii) : bool :=
  between 48 57 c || between 65 90 c || between 97 122 c
  || Nat.eqb (nat_of_ascii c) 95.

(** [strings.CutPrefix]: the rest of [s] after the literal [p], if [s]
    starts with it. *)
Fixpoint cut_prefix (p s : string) : option string :=
  match p with
  | EmptyString => Some s
  | String a p' =>
      match s with
      | EmptyString => None
      | String c s' => if Ascii.eqb a c then cut_prefix p' s' else None
      end
  end.

(** What is left of [s] after its longest run of leading digits. *)
Fixpoint drop_digits (s : string) : string :=
  match s with
  | EmptyString => EmptyString
  | String c s' => if is_digit c then drop_digits s' else s
  end.

(** [[0-9]+]: at least one digit, then as many as there are (greedy; the
    byte that follows in both patterns below is [;], not a digit, so no
    shorter run can lead to a match). *)
Definition digits1 (s : string) : option string :=
  match s with
  | EmptyString => None
  | String c s' => if is_digit c then Some (drop_digits s') else None
  end.

End GoStrings.
Import GoStrings.

(** ** Files of package [os] *)

Module Os.

(** The open flags of package [os] used by the programs, as the bit masks
    they are on Linux ([syscall.O_WRONLY] and so on). *)
Definition O_WRONLY : N := 1.
Definition O_RDWR   : N := 2.
Definition O_CREATE : N := 64.
Definition O_TRUNC  : N := 512.
Definition O_APPEND : N := 1024.

(** A path of the file system holds some content, or nothing. *)
Definition Path := option string.

(** An open file: what the path holds now, the write offset, and whether
    every write goes to the end ([O_APPEND]). *)
Record File := mkFile {
  content : string;
  offset : nat;
  append_mode : bool
}.

(** [flag&bit != 0]. *)
Definition has_flag (flag bit : N) : bool :=
  negb (N.eqb (N.land flag bit) 0).

(** [os.OpenFile(name, flag, perm)] for a writable open: a missing file is
    created when [O_CREATE] is set, an existing one is emptied when
    [O_TRUNC] is set; the offset starts at 0. *)
Definition OpenFile (p : Path) (flag : N) : option File :=
  match p with
  | None =>
      if has_flag flag O_CREATE
      then Some (mkFile "" 0 (has_flag flag O_APPEND))
      else None
  | Some old =>
      Some (mkFile (if has_flag flag O_TRUNC then "" else old)
                   0 (has_flag flag O_APPEND))
  end.

(** [os.Create(name)] is [OpenFile(name, O_RDWR|O_CREATE|O_TRUNC, 0666)]. *)
Definition Create (p : Path) : option File :=
  OpenFile p (N.lor O_RDWR (N.lor O_CREATE O_TRUNC)).

Fixpoint take (n : nat) (s : string) : string :=
  match n, s with
  | S n', String c s' => String c (take n' s')
  | _, _ => EmptyString
  end.

Fixpoint drop (n : nat) (s : string) : string :=
  match n, s with
  | S n', String _ s' => drop n' s'
  | _, _ => s
  end.

(** [f.WriteString(s)] / [f.Write(b)]: in append mode the bytes go to the
    end of the file; otherwise they overwrite what is at the offset.  (The
    programs never seek, so the offset never lies beyond the end.) *)
Definition WriteString (f : File) (s : string) : File :=
  if append_mode f then
    mkFile (content f ++ s) (String.length (content f ++ s)) true
  else
    mkFile (take (offset f) (content f) ++ s
              ++ drop (offset f + String.length s) (content f))
           (offset f + String.length s) false.

End Os.

(** ** The pull decoder of package [encoding/xml] *)

Module Xml.

Record Name := mkName { Space : string; Local : string }.
Record Attr := mkAttr { AttrName : Name; Value : string }.

(** [xml.Token]: one of the six token types of the package. *)
Inductive Token :=
| StartElement (name : Name) (attr : list Attr)
| EndElement (name : Name)
| CharData (data : string)
| Comment (data : string)
| ProcInst (target inst : string)
| Directive (data : string).

(** The only error of the model: the input has no further token, because
    the file ended ([io.EOF]) or because what follows is not XML (a
    [*xml.SyntaxError]).  The programs test errors against [nil] only. *)
Inductive error := NoMoreTokens.

(** A [*xml.Decoder] is the sequence of tokens it has yet to deliver. *)
Definition Decoder := list Token.

(** [d.Token()]: the next token and a nil error, or a nil token and an
    error at the end of the input (and again at every later call). *)
Definition Decoder_Token (d : Decoder) : option Token * option error * Decoder :=
  match d with
  | [] => (None, Some NoMoreTokens, [])
  | t :: d' => (Some t, None, d')
  end.

(** The loop of [d.Skip()]: 'Skip reads tokens until it has consumed the
    end element matching the most recent start element already consumed,
    skipping nested structures.'  [depth] counts the start elements read
    by the loop and not yet closed. *)
Fixpoint Skip_loop (depth : nat) (d : Decoder) : option error * Decoder :=
  match d with
  | [] => (Some NoMoreTokens, [])
  | StartElement _ _ :: d' => Skip_loop (S depth) d'
  | EndElement _ :: d' =>
      match depth with
      | 0 => (None, d')
      | S depth' => Skip_loop depth' d'
      end
  | _ :: d' => Skip_loop depth d'
  end.

Definition Decoder_Skip (d : Decoder) : option error * Decoder := Skip_loop 0 d.

(** The content of an element as [DecodeElement] walks it. *)
Inductive Node :=
| Element (name : Name) (attr : list Attr) (children : list Node)
| Text (data : string)
| CommentNode (data : string)
| ProcInstNode (target inst : string)
| DirectiveNode (data : string).

(** The tokens the decoder delivers for a node and for a run of nodes. *)
Fixpoint tokens_of (n : Node) : list Token :=
  match n with
  | Element name attr children =>
      StartElement name attr :: flat_map tokens_of children ++ [EndElement name]
  | Text data => [CharData data]
  | CommentNode data => [Comment data]
  | ProcInstNode target inst => [ProcInst target inst]
  | DirectiveNode data => [Directive data]
  end.

Definition tokens (doc : list Node) : list Token := flat_map tokens_of doc.

(** Reading up to the end element that closes the start element already
    consumed.  [cur] holds the nodes read at the current level, last one
    first; [stack] holds, for every element opened meanwhile, its start
    element and the nodes read before it at its level. *)
Fixpoint read_content (stack : list (Name * list Attr * list Node))
         (cur : list Node) (d : Decoder) : option (list Node * Decoder) :=
  match d with
  | [] => None
  | StartElement name attr :: d' => read_content ((name, attr, cur) :: stack) [] d'
  | EndElement _ :: d' =>
      match stack with
      | [] => Some (rev cur, d')
      | (name, attr, up) :: stack' =>
          read_content stack' (Element name attr (rev cur) :: up) d'
      end
  | CharData data :: d' => read_content stack (Text data :: cur) d'
  | Comment data :: d' => read_content stack (CommentNode data :: cur) d'
  | ProcInst target inst :: d' => read_content stack (ProcInstNode target inst :: cur) d'
  | Directive data :: d' => read_content stack (DirectiveNode data :: cur) d'
  end.

(** How [Unmarshal] maps XML to the fields of a Go struct: the struct's
    zero value, and the value after the attributes of the start element
    and the content of the element have been assigned to its fields. *)
Class Unmarshal (T : Type) := {
  zero : T;
  assign : T -> list Attr -> list Node -> T
}.

(** [d.DecodeElement(&v, &start)] for a freshly declared [v]: the content up
    to the matching end element is consumed and mapped to the fields; an
    input that ends before that is an error. *)
Definition Decoder_DecodeElement {T} `{Unmarshal T} (attr : list Attr) (d : Decoder)
  : option (T * Decoder) :=
  match read_content [] [] d with
  | None => None
  | Some (children, d') => Some (assign zero attr children, d')
  end.

(** A string (or [[]byte]) field mapped to an element receives the
    element's own character data, the content of nested elements left
    out. *)
Fixpoint chardata (children : list Node) : string :=
  match children with
  | [] => ""
  | Text data :: rest => data ++ chardata rest
  | _ :: rest => chardata rest
  end.

(** A field with tag [xml:',attr'] named [field]: every attribute with that
    local name is assigned in turn, so the last one stays. *)
Definition assign_attr (field : string) (old : string) (attr : list Attr) : string :=
  fold_left (fun v a => if String.eqb (Local (AttrName a)) field then Value a else v)
            attr old.

(** A string field named [field]: every child element with that local name
    is unmarshalled into it in turn. *)
Definition assign_text (field : string) (old : string) (children : list Node) : string :=
  fold_left (fun v c =>
               match c with
               | Element name _ content =>
                   if String.eqb (Local name) field then chardata content else v
               | _ => v
               end)
            children old.

(** A struct field named [field]: every child element with that local
    name is unmarshalled into the same struct value in turn. *)
Definition assign_struct {T} `{Unmarshal T} (field : string) (old : T)
           (children : list Node) : T :=
  fold_left (fun v c =>
               match c with
               | Element name attr content =>
                   if String.eqb (Local name) field then assign v attr content else v
               | _ => v
               end)
            children old.

End Xml.

(** ** [base64.StdEncoding] *)

Module Base64.

(** [base64.CorruptInputError] and [io.ErrUnexpectedEOF]. *)
Inductive error := CorruptInputError | ErrUnexpectedEOF.

(** The decode map of the standard alphabet: [A-Z], [a-z], [0-9], [+], [/]. *)
Definition decodeMap (c : ascii) : option N :=
  let n := N_of_ascii c in
  if between 65 90 c then Some (n - 65)%N
  else if between 97 122 c then Some (n - 97 + 26)%N
  else if between 48 57 c then Some (n - 48 + 52)%N
  else if N.eqb n 43 then Some 62%N
  else if N.eqb n 47 then Some 63%N
  else None.

Definition padChar : ascii := "="%char.

(** [byte(val)]: the low eight bits. *)
Definition byte (n : N) : ascii := ascii_of_N (n mod 256).

Definition trailing (rest : string) : option error :=
  match rest with
  | EmptyString => None
  | _ => Some CorruptInputError
  end.

(** [StdEncoding.Decode] on input without line breaks, four characters at
    a time: the bytes decoded before the first error, and the error if
    there is one.  Padding ends the data; bytes after it are an error, but
    the bytes of the padded group are still delivered.  The streaming
    decoder below hands its input to [Decode] in chunks. *)
Fixpoint Decode (src : string) : string * option error :=
  match src with
  | EmptyString => (EmptyString, None)
  | String c0 (String c1 (String c2 (String c3 rest))) =>
      match decodeMap c0, decodeMap c1 with
      | Some v0, Some v1 =>
          match decodeMap c2, decodeMap c3 with
          | Some v2, Some v3 =>
              let val := (((v0 * 64 + v1) * 64 + v2) * 64 + v3)%N in
              let (out, err) := Decode rest in
              (String (byte (val / 65536)%N)
                 (String (byte (val / 256)%N) (String (byte val) out)), err)
          | Some v2, None =>
              if Ascii.eqb c3 padChar then
                let val := (((v0 * 64 + v1) * 64 + v2) * 64)%N in
                (String (byte (val / 65536)%N) (String (byte (val / 256)%N) ""),
                 trailing rest)
              else (EmptyString, Some CorruptInputError)
          | None, _ =>
              if Ascii.eqb c2 padChar && Ascii.eqb c3 padChar then
                let val := (((v0 * 64 + v1) * 64) * 64)%N in
                (String (byte (val / 65536)%N) "", trailing rest)
              else (EmptyString, Some CorruptInputError)
          end
      | _, _ => (EmptyString, Some CorruptInputError)
      end
  | _ => (EmptyString, Some CorruptInputError)
  end.

(** The reader that [base64.NewDecoder] puts in front of the decoder drops
    carriage returns and line feeds.
    [newlineFilteringReader.Read(p)] over a [bytes.Reader] that still holds
    [raw], for a buffer [p] of [n] bytes: the wrapped reader fills [p] with
    the next [n] bytes (or with what is left), line breaks are dropped, and
    when nothing is left of the bytes read the wrapped reader is read again.
    [k] is the room left in [p] for the current read of the wrapped reader,
    [acc] the bytes kept of it so far.  The result is the bytes delivered,
    whether the end of the input is reported instead ([io.EOF] with no
    bytes), and what the wrapped reader still holds. *)
Fixpoint filtering_Read_loop (n k : nat) (acc raw : string) : string * bool * string :=
  match raw with
  | EmptyString =>
      (acc, match acc with EmptyString => true | _ => false end, EmptyString)
  | String c raw' =>
      let acc' :=
        if Ascii.eqb c newline || Ascii.eqb c carriage_return then acc
        else acc ++ String c "" in
      match k with
      | S (S k') => filtering_Read_loop n (S k') acc' raw'
      | _ =>
          match acc' with
          | EmptyString => filtering_Read_loop n n "" raw'
          | _ => (acc', false, raw')
          end
      end
  end.

Definition filtering_Read (n : nat) (raw : string) : string * bool * string :=
  filtering_Read_loop n n "" raw.

(** The size of the input buffer of the streaming decoder, [len(d.buf)]. *)
Definition bufsize : nat := 1024.

(** The loop [for d.nbuf < 4 && d.readErr == nil] of [decoder.Read], which
    refills the input buffer [buf] from the filtering reader.  Every turn
    without error adds one byte at least, so the loop makes four turns at
    most (see [Base64Facts.refill_done]). *)
Fixpoint refill (turns : nat) (buf raw : string) (readErr : bool)
  : string * string * bool :=
  match turns with
  | 0 => (buf, raw, readErr)
  | S turns' =>
      if Nat.ltb (String.length buf) 4 && negb readErr then
        let '(got, eof, raw') := filtering_Read (bufsize - String.length buf) raw in
        refill turns' (buf ++ got) raw' eof
      else (buf, raw, readErr)
  end.

(** [io.Copy] reading from the decoder until it reports an error.  One turn
    is one [decoder.Read] into the buffer of [io.Copy] (32 KiB, more than a
    decoded chunk): the input buffer is refilled; with fewer than four
    characters in it the input is at its end ([io.EOF], or
    [io.ErrUnexpectedEOF] when characters are left over); else the largest
    multiple of four characters is decoded by [Decode] and delivered, the
    rest stays in the buffer, and an error of [Decode] ends the copy behind
    the bytes delivered with it. *)
Fixpoint copy_loop (fuel : nat) (buf raw : string) (readErr : bool)
  : option (string * option error) :=
  match fuel with
  | 0 => None
  | S fuel' =>
      let '(buf, raw, readErr) := refill 4 buf raw readErr in
      if Nat.ltb (String.length buf) 4 then
        Some (EmptyString,
              match buf with
              | EmptyString => None
              | _ => Some ErrUnexpectedEOF
              end)
      else
        let nr := String.length buf / 4 * 4 in
        let (out, err) := Decode (Os.take nr buf) in
        match err with
        | Some e => Some (out, Some e)
        | None =>
            match copy_loop fuel' (Os.drop nr buf) raw readErr with
            | Some (out', err') => Some (out ++ out', err')
            | None => None
            end
        end
  end.

(** Reading all of [base64.NewDecoder(base64.StdEncoding, r)], where [r]
    holds [payload]: the bytes delivered, and the error that ended the
    reading unless it was [io.EOF].  Every turn that goes on takes four
    characters out of the buffer, so one turn more than the payload has
    characters is enough ([Base64Facts.copy_loop_total]); the second branch
    is never taken. *)
Definition NewDecoder_read (payload : string) : string * option error :=
  match copy_loop (S (String.length payload)) "" payload false with
  | Some r => r
  | None => (EmptyString, None)
  end.

End Base64.

(** ** The TypeDictionary extractor *)

Module ExtractTypedictionary.
Import Os Xml.

(** The anonymous struct of the field [Value]. *)
Record UAVariable_Value := mkValue {
  ByteString : string
}.

Record UAVariable := mkUAVariable {
  DisplayName : string;
  Value : UAVariable_Value
}.

#[export] Instance Unmarshal_Value : Unmarshal UAVariable_Value := {
  zero := mkValue "";
  assign v attr children :=
    mkValue (assign_text "ByteString" (ByteString v) children)
}.

#[export] Instance Unmarshal_UAVariable : Unmarshal UAVariable := {
  zero := mkUAVariable "" zero;
  assign node attr children :=
    mkUAVariable (assign_text "DisplayName" (DisplayName node) children)
                 (assign_struct "Value" (Value node) children)
}.

(** What [main] holds while it scans: the decoder, what the output path
    holds (the file is created only once the node is found) and the log. *)
Record State := mkState {
  decoder : Decoder;
  output : Path;
  log : list string
}.

Inductive Exit := Returned | Fatal.

Inductive Step :=
| Continue (s : State)
| Stop (e : Exit) (s : State).

Definition Printf (s : State) (msg : string) : State :=
  mkState (decoder s) (output s) (log s ++ [msg]).

(** [err = decoder.Skip()]; the error is not looked at afterwards. *)
Definition Skip (s : State) : State :=
  mkState (snd (Decoder_Skip (decoder s))) (output s) (log s).

(** [io.Copy(outfile, base64Decoder)]: what could be decoded is written;
    the error that ended the copy, if any, is dropped with the results of
    [io.Copy]. *)
Definition Copy (outfile : File) (payload : string) : File :=
  WriteString outfile (fst (Base64.NewDecoder_read payload)).

(** The branch 'found!': unmarshal the node, create the output file, copy
    the decoded payload, return. *)
Definition found (se_Attr : list Attr) (s : State) : Step :=
  let s := Printf s "Found! Now unmarshalling this node" in
  match Decoder_DecodeElement se_Attr (decoder s) with
  | None => Stop Fatal (Printf s "DecodeElement failed")
  | Some (node, d') =>
      let s := mkState d' (output s) (log s) in
      let s := Printf s ("DisplayName: " ++ DisplayName node) in
      let s := Printf s "Writing output file" in
      match Create (output s) with
      | None => Stop Fatal (Printf s "Error while creating output file")
      | Some outfile =>
          let outfile := Copy outfile (ByteString (Value node)) in
          Stop Returned (mkState (decoder s) (Some (content outfile)) (log s))
      end
  end.

(** [for _, attr := range se.Attr]: the first attribute whose local name
    is [NodeId] decides; a different value skips the element and leaves
    the loop ([break]), the same value is the node looked for. *)
Fixpoint range_Attr (nodeId : string) (se_Attr attrs : list Attr) (s : State) : Step :=
  match attrs with
  | [] => Continue s
  | attr :: attrs' =>
      if String.eqb (Local (AttrName attr)) "NodeId" then
        if negb (String.eqb (Xml.Value attr) nodeId) then Continue (Skip s)
        else found se_Attr s
      else range_Attr nodeId se_Attr attrs' s
  end.

(** One turn of the [for] loop of [main]; [nodeId] is [cmdlineArgs[1]]. *)
Definition loop_body (nodeId : string) (s : State) : Step :=
  let '(token, err, d) := Decoder_Token (decoder s) in
  let s := mkState d (output s) (log s) in
  match token with
  | None => Stop Fatal (Printf s "End of file encountered before finding it")
  | Some tok =>
      match err with
      | Some _ => Stop Fatal (Printf s "XML decoder error")
      | None =>
          match tok with
          | StartElement name attr =>
              if String.eqb (Local name) "UAVariable"
              then range_Attr nodeId attr attr s
              else Continue s
          | _ => Continue s
          end
      end
  end.

Fixpoint main_loop (nodeId : string) (fuel : nat) (s : State) : option (Exit * State) :=
  match fuel with
  | 0 => None
  | S fuel' =>
      match loop_body nodeId s with
      | Stop e s' => Some (e, s')
      | Continue s' => main_loop nodeId fuel' s'
      end
  end.

Record Result := mkResult {
  exit : Exit;
  written : Path;
  logged : list string
}.

(** [main], from [decoder := xml.NewDecoder(infile)] on: [input] is the
    token sequence of the source file, [nodeId] the second argument and
    [dest] what the output path holds before the run. *)
Definition main (input : Decoder) (nodeId : string) (dest : Path) : option Result :=
  let s := mkState input dest ["Searching for the UAVariable with NodeID " ++ nodeId] in
  match main_loop nodeId (S (List.length input)) s with
  | None => None
  | Some (e, s') => Some (mkResult e (output s') (log s'))
  end.

End ExtractTypedictionary.

(** ** The data-type extractor: field normalisation *)

Module ExtractDatatypes.
Import Os Xml.

Record UADataType := mkUADataType {
  NodeId : string;
  DisplayName : string
}.

(** [reNamespace], the pattern [^ns=[0-9]+;], as used in
    [reNamespace.ReplaceAllString(s, empty)]: the pattern is anchored, so it
    matches at most once, at the start, and the match is removed. *)
Definition reNamespace_remove (s : string) : string :=
  match cut_prefix "ns=" s with
  | Some r =>
      match digits1 r with
      | Some r' =>
          match cut_prefix ";" r' with
          | Some rest => rest
          | None => s
          end
      | None => s
      end
  | None => s
  end.

(** [reNamespaceAndI], the pattern [^ns=[0-9]+;i=], as used in
    [reNamespaceAndI.ReplaceAllString(s, empty)]. *)
Definition reNamespaceAndI_remove (s : string) : string :=
  match cut_prefix "ns=" s with
  | Some r =>
      match digits1 r with
      | Some r' =>
          match cut_prefix ";i=" r' with
          | Some rest => rest
          | None => s
          end
      | None => s
      end
  | None => s
  end.

(** [containsSpecialChars], the pattern [[^\w]], as used in
    [containsSpecialChars.MatchString(s)].  A byte outside [\w] is either an
    ASCII character outside the class or part of a rune beyond ASCII (or of
    an invalid sequence, read as U+FFFD); all of those match. *)
Fixpoint containsSpecialChars (s : string) : bool :=
  match s with
  | EmptyString => false
  | String c s' => negb (is_word c) || containsSpecialChars s'
  end.

(** The two fields of the output line, as [processOutputLine] computes them
    before formatting: [(displayName, dataType)]. *)
Definition normalizeFields (node : UADataType) : string * string :=
  let displayName := DisplayName node in
  let dataType := NodeId node in
  (* Remove the namespace part from the data type name: *)
  let dataType := reNamespaceAndI_remove dataType in
  let dataType := reNamespace_remove dataType in
  (* if the type name contains quotes, the display name gets quotes too: *)
  let displayName :=
    if ContainsRune dataType dquote && negb (ContainsRune displayName dquote)
    then Sprintf_quoted displayName
    else displayName in
  (* double the quotes: *)
  let displayName := Replace displayName dquote (q ++ q) in
  let dataType := Replace dataType dquote (q ++ q) in
  (* non-alphanumerical characters: add surrounding quotes *)
  let displayName :=
    if containsSpecialChars displayName then Sprintf_quoted displayName
    else displayName in
  let dataType :=
    if containsSpecialChars dataType then Sprintf_quoted dataType
    else dataType in
  (displayName, dataType).

(** [fmt.Sprintf] with the format [%s,%s,DataType\n]. *)
Definition outputLine (node : UADataType) : string :=
  let (displayName, dataType) := normalizeFields node in
  displayName ++ "," ++ dataType ++ ",DataType" ++ nl.

(** [processOutputLine(outfile, node)]: the line is written to the file.
    (A failing write is fatal in the source; here every write succeeds, and
    [DatatypesSink] has the program with writes that can fail.) *)
Definition processOutputLine (outfile : File) (node : UADataType) : File :=
  WriteString outfile (outputLine node).

(** The fields of [UADataType]: [NodeId] has the tag [xml:',attr'],
    [DisplayName] is a child element. *)
#[export] Instance Unmarshal_UADataType : Unmarshal UADataType := {
  zero := mkUADataType "" "";
  assign node attr children :=
    mkUADataType (assign_attr "NodeId" (NodeId node) attr)
                 (assign_text "DisplayName" (DisplayName node) children)
}.

(** What [main] holds while it scans: the decoder, the output file and
    what package [log] has printed so far. *)
Record State := mkState {
  decoder : Decoder;
  outfile : File;
  log : list string
}.

(** How [main] ends: by [return], or by [log.Fatalf] (exit status 1). *)
Inductive Exit := Returned | Fatal.

Inductive Step :=
| Continue (s : State)
| Stop (e : Exit) (s : State).

Definition Printf (s : State) (msg : string) : State :=
  mkState (decoder s) (outfile s) (log s ++ [msg]).

(** [decoder.Skip()], its error dropped as in the source. *)
Definition Skip (s : State) : State :=
  mkState (snd (Decoder_Skip (decoder s))) (outfile s) (log s).

(** One turn of the [for] loop of [main]. *)
Definition loop_body (s : State) : Step :=
  let '(token, err, d) := Decoder_Token (decoder s) in
  let s := mkState d (outfile s) (log s) in
  match token with
  | None => Stop Returned (Printf s "End of file encountered, done!")
  | Some tok =>
      match err with
      | Some _ => Stop Fatal (Printf s "XML decoder error")
      | None =>
          match tok with
          | StartElement name attr =>
              if String.eqb (Local name) "UADataType" then
                match Decoder_DecodeElement attr (decoder s) with
                | None => Stop Fatal (Printf s "DecodeElement failed")
                | Some (node, d') =>
                    let s := mkState d' (outfile s) (log s) in
                    let s :=
                      if String.eqb (NodeId node) "" then
                        Skip (Printf s "Found UADataType without NodeId, skipping")
                      else s in
                    let s :=
                      if String.eqb (DisplayName node) "" then
                        Skip (Printf s ("Found UADataType (NodeId " ++ NodeId node
                                          ++ ") without DisplayName, skipping"))
                      else s in
                    Continue (mkState (decoder s)
                                      (processOutputLine (outfile s) node)
                                      (log s))
                end
              else Continue s
          | _ => Continue s
          end
      end
  end.

(** The [for] loop, for at most [fuel] turns. *)
Fixpoint main_loop (fuel : nat) (s : State) : option (Exit * State) :=
  match fuel with
  | 0 => None
  | S fuel' =>
      match loop_body s with
      | Stop e s' => Some (e, s')
      | Continue s' => main_loop fuel' s'
      end
  end.

(** What a run leaves behind: how it ended, what the output path holds and
    what was logged. *)
Record Result := mkResult {
  exit : Exit;
  output : Path;
  logged : list string
}.

(** [main], from [decoder := xml.NewDecoder(infile)] on: [input] is the
    token sequence of the source file and [dest] what the output path
    holds before the run.  Every turn of the loop consumes a token, so one
    turn more than there are tokens is enough (see [main_total]). *)
Definition main (input : Decoder) (dest : Path) : option Result :=
  match OpenFile dest (N.lor O_CREATE (N.lor O_TRUNC O_WRONLY)) with
  | None => Some (mkResult Returned dest ["Opening output file"; "Error"])
  | Some f =>
      let s := mkState input f ["Opening output file"; "Searching for UADataType nodes"] in
      match main_loop (S (List.length input)) s with
      | None => None
      | Some (e, s') => Some (mkResult e (Some (content (outfile s'))) (log s'))
      end
  end.

End ExtractDatatypes.




(** ** Well-formed input, seen from the decoder *)

Module XmlShape.
Import Xml.
Local Open Scope list_scope.

(** What a decoder can still hold while it reads a well-formed document:
    complete nodes, and the end elements of the elements it is inside of. *)
Inductive remainder : Decoder -> Prop :=
| remainder_nil : remainder []
| remainder_node n d : remainder d -> remainder (tokens_of n ++ d)
| remainder_end name d : remainder d -> remainder (EndElement name :: d).

Section NodeInduction.
Variable P : Node -> Prop.
Hypothesis P_Element :
  forall name attr children, Forall P children -> P (Element name attr children).
Hypothesis P_Text : forall data, P (Text data).
Hypothesis P_Comment : forall data, P (CommentNode data).
Hypothesis P_ProcInst : forall target inst, P (ProcInstNode target inst).
Hypothesis P_Directive : forall data, P (DirectiveNode data).

Fixpoint Node_induction (n : Node) : P n :=
  match n with
  | Element name attr children =>
      P_Element name attr children
        ((fix all (l : list Node) : Forall P l :=
            match l with
            | [] => Forall_nil P
            | x :: l' => Forall_cons x (Node_induction x) (all l')
            end) children)
  | Text data => P_Text data
  | CommentNode data => P_Comment data
  | ProcInstNode target inst => P_ProcInst target inst
  | DirectiveNode data => P_Directive data
  end.
End NodeInduction.

End XmlShape.

(** ** What the scan of the TypeDictionary extractor looks for *)

Module TypedictionaryScan.
Import Xml.
Local Open Scope list_scope.

(** The identifier of a start element as [main] reads it: the value of
    the first attribute whose local name is [NodeId]. *)
Fixpoint first_NodeId (attrs : list Attr) : option string :=
  match attrs with
  | [] => None
  | attr :: attrs' =>
      if String.eqb (Local (AttrName attr)) "NodeId" then Some (Value attr)
      else first_NodeId attrs'
  end.

(** A start element of the target kind whose identifier is [nodeId]. *)
Definition is_match (nodeId : string) (t : Token) : bool :=
  match t with
  | StartElement name attr =>
      String.eqb (Local name) "UAVariable"
      && match first_NodeId attr with
         | Some v => String.eqb v nodeId
         | None => false
         end
  | _ => false
  end.

(** A start element of the target kind that carries an identifier. *)
Definition is_candidate (t : Token) : bool :=
  match t with
  | StartElement name attr =>
      String.eqb (Local name) "UAVariable"
      && match first_NodeId attr with
         | Some _ => true
         | None => false
         end
  | _ => false
  end.

(** No element of the document is a match. *)
Definition no_match (nodeId : string) (doc : list Node) : bool :=
  forallb (fun t => negb (is_match nodeId t)) (tokens doc).

(** The input in front of the first match: single tokens that are not
    candidates (text, end elements, elements of other kinds, target
    elements without identifier), and whole elements of the target kind
    with another identifier. *)
Inductive before_match (nodeId : string) : list Token -> Prop :=
| before_nil : before_match nodeId []
| before_token t pre :
    is_candidate t = false ->
    before_match nodeId pre ->
    before_match nodeId (t :: pre)
| before_other name attr v children pre :
    Local name = "UAVariable" ->
    first_NodeId attr = Some v ->
    v <> nodeId ->
    before_match nodeId pre ->
    before_match nodeId
      (StartElement name attr :: tokens children ++ EndElement name :: pre).

End TypedictionaryScan.

(** ** Reading a line of comma-separated values *)

Module Csv.

(** Where the reader is inside a record: at the start of a field, inside
    an unquoted field, inside a quoted field, or behind a double quote
    seen inside a quoted field (the first of a doubled quote, or the
    closing one). *)
Inductive state := FieldStart | Unquoted | Quoted | QuoteSeen.

(** The fields of the one record that [s] holds, by the rules of RFC 4180
    with a line feed as the end of the record: fields are separated by
    commas; a field that starts with a double quote runs to its closing
    quote, with commas and line breaks taken literally and a doubled quote
    standing for one quote; an unquoted field holds no quote and no line
    break.  Nothing may follow the line feed that ends the record. *)
Fixpoint parse (st : state) (field : string) (done : list string)
         (s : string) : option (list string) :=
  match s with
  | EmptyString => None
  | String c s' =>
      match st with
      | FieldStart | Unquoted =>
          if Ascii.eqb c comma then parse FieldStart "" (done ++ [field])%list s'
          else if Ascii.eqb c newline then
            match s' with
            | EmptyString => Some (done ++ [field])%list
            | _ => None
            end
          else if Ascii.eqb c dquote then
            match st with
            | FieldStart => parse Quoted "" done s'
            | _ => None
            end
          else if Ascii.eqb c carriage_return then None
          else parse Unquoted (field ++ String c "") done s'
      | Quoted =>
          if Ascii.eqb c dquote then parse QuoteSeen field done s'
          else parse Quoted (field ++ String c "") done s'
      | QuoteSeen =>
          if Ascii.eqb c dquote then parse Quoted (field ++ q) done s'
          else if Ascii.eqb c comma then parse FieldStart "" (done ++ [field])%list s'
          else if Ascii.eqb c newline then
            match s' with
            | EmptyString => Some (done ++ [field])%list
            | _ => None
            end
          else None
      end
  end.

Definition record (line : string) : option (list string) :=
  parse FieldStart "" [] line.

End Csv.

(** ** The steps of the field normaliser, one by one *)

Module Normalizer.
Import ExtractDatatypes.

(** Steps 1 and 2: the identifier without its name space prefix. *)
Definition stripped_NodeId (node : UADataType) : string :=
  reNamespace_remove (reNamespaceAndI_remove (NodeId node)).

(** Step 3: the label, put in quotes when the identifier holds a quote and
    the label holds none. *)
Definition matched_DisplayName (node : UADataType) : string :=
  if ContainsRune (stripped_NodeId node) dquote
     && negb (ContainsRune (DisplayName node) dquote)
  then Sprintf_quoted (DisplayName node)
  else DisplayName node.

(** Steps 4 and 5: quotes doubled, and the whole put in quotes when it
    holds a character outside [\w]. *)
Definition csv_field (x : string) : string :=
  let doubled := Replace x dquote (q ++ q) in
  if containsSpecialChars doubled then Sprintf_quoted doubled else doubled.

Definition qq : string := q ++ q.

(** The normaliser applied to its own output: the label field as the new
    label, the identifier field as the new identifier. *)
Definition renormalize (fields : string * string) : string * string :=
  normalizeFields (mkUADataType (snd fields) (fst fields)).

End Normalizer.

(** ** Example documents and records *)

Module Examples.
Import Xml.

(** The element [name] with attributes [attrs] and content [children],
    without name spaces. *)
Definition elem (name : string) (attrs : list (string * string))
           (children : list Node) : Node :=
  Element (mkName "" name)
          (map (fun a => mkAttr (mkName "" (fst a)) (snd a)) attrs)
          children.

(** A node set with one variable that is not looked for. *)
Definition doc_other : list Node :=
  [elem "UANodeSet" []
     [elem "UAVariable" [("NodeId", "ns=1;i=7")]
        [elem "DisplayName" [] [Text "Other"]]]].

(** A node set in which the second variable carries the payload [payload]. *)
Definition doc_dictionary (payload : string) : list Node :=
  [elem "UANodeSet" []
     [elem "UAVariable" [("NodeId", "ns=1;i=7")]
        [elem "DisplayName" [] [Text "Other"]];
      elem "UAVariable" [("NodeId", "ns=1;i=8")]
        [elem "DisplayName" [] [Text "TypeDictionary"];
         elem "Value" [] [elem "ByteString" [] [Text payload]]];
      elem "UAVariable" [("NodeId", "ns=1;i=8")]
        [elem "Value" [] [elem "ByteString" [] [Text "QUJD"]]]]].

(** A node set with two data types; the second one has no display name. *)
Definition doc_unnamed_last : list Node :=
  [elem "UANodeSet" []
     [elem "UADataType" [("NodeId", "ns=2;i=1001")]
        [elem "DisplayName" [] [Text "Simple"]];
      elem "UADataType" [("NodeId", "ns=1;i=7")] []]].

(** A node set with two data types; the first one has no display name. *)
Definition doc_unnamed_first : list Node :=
  [elem "UANodeSet" []
     [elem "UADataType" [("NodeId", "ns=1;i=7")] [];
      elem "UADataType" [("NodeId", "ns=2;i=1001")]
        [elem "DisplayName" [] [Text "Simple"]]]].

(** A node set whose only variable with the identifier [ns=1;i=8] lies
    inside a variable with another identifier. *)
Definition doc_nested_match : list Node :=
  [elem "UANodeSet" []
     [elem "UAVariable" [("NodeId", "ns=1;i=7")]
        [elem "UAVariable" [("NodeId", "ns=1;i=8")]
           [elem "Value" [] [elem "ByteString" [] [Text "QUJD"]]]]]].

(** The identifier [ns=3;s=] followed by [Demo] in double quotes. *)
Definition demo_NodeId : string := "ns=3;s=" ++ q ++ "Demo" ++ q.

(** The field expected for it: a quote, [s=], two quotes, [Demo], three
    quotes. *)
Definition demo_field : string := q ++ "s=" ++ q ++ q ++ "Demo" ++ q ++ q ++ q.

End Examples.

(** ** The programs with their command lines *)

Module TypedictionaryCommand.
Import Os Xml ExtractTypedictionary.
Local Open Scope list_scope.

(** [printUsage()] of the TypeDictionary extractor: five lines for the log. *)
Definition printUsage (lg : list string) : list string :=
  lg ++ ["Usage:"%string;
         "  extract_typedictionary <source> <node-id> <output file>"%string;
         "    source: the source filename containing a UANodeSet in XML format"%string;
         "    node-id: the literal node-ID of the node containing the TypeDictionary (as it occurs in the XML), for example: ns=3;s=&quot;demoNodeName&quot;"%string;
         ""%string].

(** [main] from its first line: [cmdlineArgs] is [os.Args[1:]], [infile]
    what [os.Open(cmdlineArgs[0])] and [xml.NewDecoder] give ([None] when the
    file cannot be opened, else the tokens the decoder delivers in this
    run), [dest] what the path [cmdlineArgs[2]] holds before the run. *)
Definition command (cmdlineArgs : list string) (infile : option Decoder)
           (dest : Path) : option Result :=
  if negb (Nat.eqb (List.length cmdlineArgs) 3) then
    Some (mkResult Returned dest
            (printUsage ["Invalid number of command line arguments specified"%string]))
  else
    let lg := [("Opening input file " ++ nth 0 cmdlineArgs "")%string] in
    match infile with
    | None => Some (mkResult Returned dest (lg ++ ["Error"%string]))
    | Some input =>
        match main input (nth 1 cmdlineArgs ""%string) dest with
        | None => None
        | Some r => Some (mkResult (exit r) (written r) (lg ++ logged r))
        end
    end.

End TypedictionaryCommand.

Module DatatypesCommand.
Import Os Xml ExtractDatatypes.
Local Open Scope list_scope.

(** [printUsage()] of the data-type extractor. *)
Definition printUsage (lg : list string) : list string :=
  lg ++ ["Usage:"%string;
         "  extract_typedictionary <source file> <output file>"%string;
         "    source file: the source filename containing a UANodeSet in XML format"%string;
         "    output file: the CSV-file to which the data types will be *appended*"%string;
         ""%string].

(** [main] from its first line, as for the other program; [dest] is what the
    path [cmdlineArgs[1]] holds before the run.  The input file is opened
    before the output file. *)
Definition command (cmdlineArgs : list string) (infile : option Decoder)
           (dest : Path) : option Result :=
  if negb (Nat.eqb (List.length cmdlineArgs) 2) then
    Some (mkResult Returned dest
            (printUsage ["Invalid number of command line arguments specified"%string]))
  else
    let lg := [("Opening input file " ++ nth 0 cmdlineArgs "")%string] in
    match infile with
    | None => Some (mkResult Returned dest (lg ++ ["Error"%string]))
    | Some input =>
        match main input dest with
        | None => None
        | Some r => Some (mkResult (exit r) (output r) (lg ++ logged r))
        end
    end.

End DatatypesCommand.

(** ** The data types of a document, as the scan meets them *)

Module DatatypesRecords.
Import Os Xml ExtractDatatypes.
Local Open Scope list_scope.

(** In document order: an element named [UADataType] gives one record, and
    its content is not searched for further ones; any other element is
    searched. *)
Fixpoint records_of (n : Node) : list UADataType :=
  match n with
  | Element name attr children =>
      if String.eqb (Local name) "UADataType"
      then [assign zero attr children]
      else flat_map records_of children
  | _ => []
  end.

Definition records (doc : list Node) : list UADataType :=
  flat_map records_of doc.

(** A record with identifier and display name. *)
Definition complete (node : UADataType) : bool :=
  negb (String.eqb (NodeId node) "") && negb (String.eqb (DisplayName node) "").

(** The lines of a list of records, one after the other. *)
Fixpoint lines (nodes : list UADataType) : string :=
  match nodes with
  | [] => ""%string
  | node :: nodes' => (outputLine node ++ lines nodes')%string
  end.

(** A token that starts a data type. *)
Definition starts_datatype (t : Token) : bool :=
  match t with
  | StartElement name _ => String.eqb (Local name) "UADataType"
  | _ => false
  end.

(** The file keeps its write offset at its end. *)
Definition at_end (f : File) : Prop := offset f = String.length (content f).

End DatatypesRecords.

(** ** Identifiers with a name space prefix *)

Module Identifiers.

(** A string of digits. *)
Fixpoint all_digits (s : string) : bool :=
  match s with
  | EmptyString => true
  | String c s' => is_digit c && all_digits s'
  end.

(** A name space number: one digit at least. *)
Definition is_number (s : string) : bool :=
  match s with
  | EmptyString => false
  | _ => all_digits s
  end.

End Identifiers.

(** ** Input that ends inside an element *)

Module XmlEnd.
Import Xml.

(** Whether the input holds the end element of the element the decoder is
    inside of, when [depth] further elements have been opened since. *)
Fixpoint closes (depth : nat) (d : Decoder) : bool :=
  match d with
  | [] => false
  | StartElement _ _ :: d' => closes (S depth) d'
  | EndElement _ :: d' =>
      match depth with
      | 0 => true
      | S depth' => closes depth' d'
      end
  | _ :: d' => closes depth d'
  end.

End XmlEnd.

(** ** The data-type extractor with writes that can fail *)

Module DatatypesSink.
Import Os Xml ExtractDatatypes.
Local Open Scope list_scope.

(** How a write to the output file goes: all bytes are written, or the
    write fails after its first [k] bytes. *)
Inductive Outcome := Written | Failed (k : nat).

(** What the run cannot know beforehand: how its write number [n] will go. *)
Definition Sink := nat -> Outcome.

(** [outfile.WriteString(s)] with its error: the file afterwards, and
    whether [err != nil]. *)
Definition WriteString_err (o : Outcome) (f : File) (s : string) : File * bool :=
  match o with
  | Written => (WriteString f s, false)
  | Failed k => (WriteString f (take k s), true)
  end.

(** [processOutputLine(outfile, node)] with its last three lines: an error
    of the write is fatal ([log.Fatalf], 'Cannot write output file'). *)
Definition processOutputLine_err (o : Outcome) (outfile : File) (node : UADataType)
  : File * bool :=
  WriteString_err o outfile (outputLine node).

(** One turn of the loop of [main], as [ExtractDatatypes.loop_body], with
    the write looked at; [n] counts the writes made so far. *)
Definition loop_body (sink : Sink) (n : nat) (s : State) : Step * nat :=
  let '(token, err, d) := Decoder_Token (decoder s) in
  let s := mkState d (outfile s) (log s) in
  match token with
  | None => (Stop Returned (Printf s "End of file encountered, done!"), n)
  | Some tok =>
      match err with
      | Some _ => (Stop Fatal (Printf s "XML decoder error"), n)
      | None =>
          match tok with
          | StartElement name attr =>
              if String.eqb (Local name) "UADataType" then
                match Decoder_DecodeElement attr (decoder s) with
                | None => (Stop Fatal (Printf s "DecodeElement failed"), n)
                | Some (node, d') =>
                    let s := mkState d' (outfile s) (log s) in
                    let s :=
                      if String.eqb (NodeId node) "" then
                        Skip (Printf s "Found UADataType without NodeId, skipping")
                      else s in
                    let s :=
                      if String.eqb (DisplayName node) "" then
                        Skip (Printf s ("Found UADataType (NodeId " ++ NodeId node
                                          ++ ") without DisplayName, skipping"))
                      else s in
                    let (f, failed) := processOutputLine_err (sink n) (outfile s) node in
                    let s := mkState (decoder s) f (log s) in
                    if failed
                    then (Stop Fatal (Printf s "Cannot write output file"), S n)
                    else (Continue s, S n)
                end
              else (Continue s, n)
          | _ => (Continue s, n)
          end
      end
  end.

Fixpoint main_loop (sink : Sink) (fuel n : nat) (s : State) : option (Exit * State) :=
  match fuel with
  | 0 => None
  | S fuel' =>
      match loop_body sink n s with
      | (Stop e s', _) => Some (e, s')
      | (Continue s', n') => main_loop sink fuel' n' s'
      end
  end.

(** [main] of the data-type extractor, as [ExtractDatatypes.main]. *)
Definition main (sink : Sink) (input : Decoder) (dest : Path) : option Result :=
  match OpenFile dest (N.lor O_CREATE (N.lor O_TRUNC O_WRONLY)) with
  | None => Some (mkResult Returned dest ["Opening output file"; "Error"])
  | Some f =>
      let s := mkState input f ["Opening output file"; "Searching for UADataType nodes"] in
      match main_loop sink (S (List.length input)) 0 s with
      | None => None
      | Some (e, s') => Some (mkResult e (Some (content (outfile s'))) (log s'))
      end
  end.

(** The program with its command line, as [DatatypesCommand.command]. *)
Definition command (sink : Sink) (cmdlineArgs : list string)
           (infile : option Decoder) (dest : Path) : option Result :=
  if negb (Nat.eqb (List.length cmdlineArgs) 2) then
    Some (mkResult Returned dest
            (DatatypesCommand.printUsage
               ["Invalid number of command line arguments specified"%string]))
  else
    let lg := [("Opening input file " ++ nth 0 cmdlineArgs "")%string] in
    match infile with
    | None => Some (mkResult Returned dest (lg ++ ["Error"%string]))
    | Some input =>
        match main sink input dest with
        | None => None
        | Some r => Some (mkResult (exit r) (output r) (lg ++ logged r))
        end
    end.

(** The sink all of whose writes succeed. *)
Definition reliable : Sink := fun _ => Written.

End DatatypesSink.

(** ** Turns of the scan loops *)

Module ScanSteps.

(** [reachesA nodeId s s']: the loop of the TypeDictionary extractor, started
    in state [s], is in state [s'] after some turns. *)
Inductive reachesA (nodeId : string) :
  ExtractTypedictionary.State -> ExtractTypedictionary.State -> Prop :=
| reachesA_here s : reachesA nodeId s s
| reachesA_turn s s1 s' :
    ExtractTypedictionary.loop_body nodeId s = ExtractTypedictionary.Continue s1 ->
    reachesA nodeId s1 s' ->
    reachesA nodeId s s'.

(** The same for the loop of the data-type extractor. *)
Inductive reachesB : ExtractDatatypes.State -> ExtractDatatypes.State -> Prop :=
| reachesB_here s : reachesB s s
| reachesB_turn s s1 s' :
    ExtractDatatypes.loop_body s = ExtractDatatypes.Continue s1 ->
    reachesB s1 s' ->
    reachesB s s'.

End ScanSteps.

(** ** Facts about strings, files and the decoder *)

Module StringFacts.

Lemma append_empty_r (s : string) : s ++ "" = s.
Proof. induction s as [|c s IH]; cbn; [reflexivity | now rewrite IH]. Qed.

Lemma append_assoc (a b c : string) : (a ++ b) ++ c = a ++ b ++ c.
Proof. induction a as [|x a IH]; cbn; [reflexivity | now rewrite IH]. Qed.

Lemma length_append (a b : string) :
  String.length (a ++ b) = String.length a + String.length b.
Proof. induction a as [|x a IH]; cbn; [reflexivity | now rewrite IH]. Qed.

End StringFacts.

Module OsFacts.
Import Os StringFacts.

(** [os.Create] leaves an empty file, whatever the path held. *)
Lemma Create_empty (p : Path) : Create p = Some (mkFile "" 0 false).
Proof. destruct p; reflexivity. Qed.

(** The first write to an empty file makes the written bytes its content. *)
Lemma WriteString_empty (a : bool) (s : string) :
  content (WriteString (mkFile "" 0 a) s) = s.
Proof.
  unfold WriteString. cbn [append_mode content offset].
  destruct a; cbn [content take String.append Nat.add].
  - reflexivity.
  - destruct (String.length s); cbn [drop]; apply append_empty_r.
Qed.

End OsFacts.

Module Base64Facts.
Import StringFacts Os Base64.

Lemma length_take_drop (n : nat) (s : string) :
  String.length (take n s) + String.length (drop n s) = String.length s.
Proof.
  revert s. induction n as [|n IH]; intros s; [reflexivity|].
  destruct s as [|c s]; [reflexivity|]. cbn [take drop String.length].
  now rewrite <- (IH s).
Qed.

Lemma length_take_le (n : nat) (s : string) :
  n <= String.length s -> String.length (take n s) = n.
Proof.
  revert s. induction n as [|n IH]; intros s H; [reflexivity|].
  destruct s as [|c s]; cbn [String.length] in H; [lia|].
  cbn [take String.length]. rewrite IH; lia.
Qed.

(** What a read of the filtering reader delivers is taken from the input,
    and it is empty only at the end of the input. *)
Lemma filtering_Read_loop_spec (n : nat) :
  forall raw k acc got eof raw',
    filtering_Read_loop n k acc raw = (got, eof, raw') ->
    String.length got + String.length raw' <= String.length acc + String.length raw
    /\ (eof = true -> got = ""%string /\ raw' = ""%string)
    /\ (eof = false -> got <> ""%string).
Proof.
  induction raw as [|c raw IH]; intros k acc got eof raw' H;
    cbn [filtering_Read_loop] in H.
  - injection H as <- <- <-. cbn [String.length].
    destruct acc; (split; [lia | split; [intros E | intros E]]);
      try discriminate; auto.
  - set (acc' := if Ascii.eqb c newline || Ascii.eqb c carriage_return
                 then acc else (acc ++ String c "")%string) in H.
    assert (Hacc : String.length acc' <= S (String.length acc)).
    { unfold acc'. destruct (_ || _); [lia|].
      rewrite length_append. cbn [String.length]. lia. }
    cbn [String.length].
    assert (Hdone :
              match acc' with
              | EmptyString => filtering_Read_loop n n "" raw
              | String _ _ => (acc', false, raw)
              end = (got, eof, raw') ->
              String.length got + String.length raw'
              <= String.length acc + S (String.length raw)
              /\ (eof = true -> got = ""%string /\ raw' = ""%string)
              /\ (eof = false -> got <> ""%string)).
    { destruct acc' as [|a acc''] eqn:E.
      - intros H'. apply IH in H'. cbn [String.length] in H'.
        destruct H' as (H1 & H2 & H3). split; [lia | split; assumption].
      - intros H'. injection H' as <- <- <-. cbn [String.length] in *.
        split; [lia | split; [discriminate | discriminate]]. }
    destruct k as [|[|k]]; [exact (Hdone H) | exact (Hdone H) |].
    apply IH in H. destruct H as (H1 & H2 & H3).
    split; [lia | split; assumption].
Qed.

(** After the refill loop the buffer holds four characters at least, or the
    end of the input has been seen; and nothing has been added to the
    characters at hand. *)
Lemma refill_spec :
  forall turns buf raw readErr buf' raw' readErr',
    refill turns buf raw readErr = (buf', raw', readErr') ->
    String.length buf' + String.length raw' <= String.length buf + String.length raw
    /\ (4 <= String.length buf + turns \/ readErr = true ->
        4 <= String.length buf' \/ readErr' = true).
Proof.
  induction turns as [|turns IH]; intros buf raw readErr buf' raw' readErr' H;
    cbn [refill] in H.
  - injection H as <- <- <-. split; [lia|]. intros [G|G]; [left; lia | right; exact G].
  - destruct (Nat.ltb_spec (String.length buf) 4) as [Hlt|Hge]; cbn [andb] in H.
    + destruct readErr; cbn [negb] in H.
      * injection H as <- <- <-. split; [lia|]. auto.
      * unfold filtering_Read in H.
        destruct (filtering_Read_loop _ _ _ raw) as [[got eof] raw1] eqn:E.
        apply filtering_Read_loop_spec in E. cbn [String.length] in E.
        destruct E as (E1 & E2 & E3).
        apply IH in H. rewrite length_append in H. destruct H as [H1 H2].
        split; [lia|]. intros [G|G]; [|discriminate G]. apply H2.
        destruct eof; [right; reflexivity|]. left.
        specialize (E3 eq_refl). destruct got; [contradiction|].
        cbn [String.length]. lia.
    + injection H as <- <- <-. split; [lia|]. auto.
Qed.

(** The refill loop of [decoder.Read] is done after four turns. *)
Lemma refill_done (buf raw : string) (readErr : bool) :
  let '(buf', _, readErr') := refill 4 buf raw readErr in
  4 <= String.length buf' \/ readErr' = true.
Proof.
  destruct (refill 4 buf raw readErr) as [[buf' raw'] readErr'] eqn:E.
  apply refill_spec in E. destruct E as [_ E]. apply E. left. lia.
Qed.

(** The copy loop ends within the turns that [NewDecoder_read] gives it. *)
Lemma copy_loop_total :
  forall fuel buf raw readErr,
    String.length buf + String.length raw < fuel ->
    exists r, copy_loop fuel buf raw readErr = Some r.
Proof.
  induction fuel as [|fuel IH]; intros buf raw readErr Hlen; [lia|].
  cbn [copy_loop].
  destruct (refill 4 buf raw readErr) as [[buf1 raw1] e1] eqn:E.
  apply refill_spec in E. destruct E as [E1 _].
  destruct (Nat.ltb_spec (String.length buf1) 4) as [Hlt|Hge]; [eauto|].
  destruct (Decode _) as [out [e|]]; [eauto|].
  pose proof (length_take_drop (String.length buf1 / 4 * 4) buf1) as Htd.
  pose proof (Nat.div_mod_eq (String.length buf1) 4) as Hdm.
  pose proof (Nat.mod_upper_bound (String.length buf1) 4 ltac:(lia)) as Hm.
  rewrite length_take_le in Htd by lia.
  destruct (IH (drop (String.length buf1 / 4 * 4) buf1) raw1 e1) as [[out' e'] ->];
    [lia|eauto].
Qed.

Lemma NewDecoder_read_copy (payload : string) :
  copy_loop (S (String.length payload)) "" payload false
  = Some (NewDecoder_read payload).
Proof.
  unfold NewDecoder_read.
  destruct (copy_loop_total (S (String.length payload)) "" payload false) as [r ->];
    [cbn [String.length]; lia | reflexivity].
Qed.

End Base64Facts.

Module XmlFacts.
Import Xml XmlShape.
Local Open Scope list_scope.

Lemma tokens_app (f g : list Node) : tokens (f ++ g) = tokens f ++ tokens g.
Proof. unfold tokens. apply flat_map_app. Qed.

Lemma tokens_cons (n : Node) (f : list Node) : tokens (n :: f) = tokens_of n ++ tokens f.
Proof. reflexivity. Qed.

Lemma tokens_of_Element name attr children :
  tokens_of (Element name attr children)
  = StartElement name attr :: tokens children ++ [EndElement name].
Proof. reflexivity. Qed.

(** [Skip] passes over a complete node without a change of depth. *)
Lemma Skip_loop_node (n : Node) :
  forall depth d, Skip_loop depth (tokens_of n ++ d) = Skip_loop depth d.
Proof.
  induction n as [name attr children IH | | | |] using Node_induction;
    intros depth d; try reflexivity.
  rewrite tokens_of_Element. cbn [app Skip_loop].
  rewrite <- app_assoc. cbn [app].
  revert depth d. unfold tokens.
  induction IH as [|c cs Hc _ IHcs]; intros depth d.
  - reflexivity.
  - cbn [flat_map]. rewrite <- app_assoc. rewrite Hc. apply IHcs.
Qed.

Lemma Skip_loop_tokens (f : list Node) :
  forall depth d, Skip_loop depth (tokens f ++ d) = Skip_loop depth d.
Proof.
  induction f as [|n f IH]; intros depth d.
  - reflexivity.
  - rewrite tokens_cons, <- app_assoc, Skip_loop_node. apply IH.
Qed.

(** Right after a start element, [Skip] stops right after its end element. *)
Lemma Skip_element (children : list Node) name (rest : Decoder) :
  Decoder_Skip (tokens children ++ EndElement name :: rest) = (None, rest).
Proof. unfold Decoder_Skip. rewrite Skip_loop_tokens. reflexivity. Qed.

(** What [Skip] leaves is a final part of what it was given. *)
Lemma Skip_loop_suffix :
  forall d depth, exists pre, d = pre ++ snd (Skip_loop depth d).
Proof.
  induction d as [|t d IH]; intros depth.
  - exists []. reflexivity.
  - destruct t; cbn [Skip_loop];
      try (destruct (IH depth) as [pre Hpre]; eexists (_ :: pre);
           cbn [app]; rewrite <- Hpre; reflexivity).
    + destruct (IH (S depth)) as [pre Hpre]. eexists (_ :: pre).
      cbn [app]. rewrite <- Hpre. reflexivity.
    + destruct depth as [|depth'].
      * eexists [_]. reflexivity.
      * destruct (IH depth') as [pre Hpre]. eexists (_ :: pre).
        cbn [app]. rewrite <- Hpre. reflexivity.
Qed.

Lemma Skip_loop_length (d : Decoder) (depth : nat) :
  List.length (snd (Skip_loop depth d)) <= List.length d.
Proof.
  destruct (Skip_loop_suffix d depth) as [pre Hpre].
  rewrite Hpre at 2. rewrite length_app. lia.
Qed.

(** [read_content] rebuilds a complete node from its tokens. *)
Lemma read_content_node (n : Node) :
  forall stack cur d,
    read_content stack cur (tokens_of n ++ d) = read_content stack (n :: cur) d.
Proof.
  induction n as [name attr children IH | | | |] using Node_induction;
    intros stack cur d; try reflexivity.
  rewrite tokens_of_Element. cbn [app read_content].
  rewrite <- app_assoc. cbn [app].
  assert (G : forall acc,
             read_content ((name, attr, cur) :: stack) acc
                          (tokens children ++ EndElement name :: d)
             = read_content stack (Element name attr (rev acc ++ children) :: cur) d).
  { unfold tokens. induction IH as [|c cs Hc _ IHcs]; intros acc.
    - cbn [flat_map app read_content]. rewrite app_nil_r. reflexivity.
    - cbn [flat_map]. rewrite <- app_assoc, Hc, IHcs.
      cbn [rev]. rewrite <- app_assoc. reflexivity. }
  apply (G []).
Qed.

Lemma read_content_tokens (f : list Node) :
  forall stack cur d,
    read_content stack cur (tokens f ++ d) = read_content stack (rev f ++ cur) d.
Proof.
  induction f as [|n f IH]; intros stack cur d.
  - reflexivity.
  - rewrite tokens_cons, <- app_assoc, read_content_node, IH.
    cbn [rev]. rewrite <- app_assoc. reflexivity.
Qed.

(** Right after a start element, [DecodeElement] consumes the element's
    content and its end element, and nothing else. *)
Lemma DecodeElement_element {T} `{Unmarshal T} attr (children : list Node) name rest :
  Decoder_DecodeElement attr (tokens children ++ EndElement name :: rest)
  = Some (assign zero attr children, rest).
Proof.
  unfold Decoder_DecodeElement. rewrite read_content_tokens.
  cbn [read_content]. rewrite app_nil_r, rev_involutive. reflexivity.
Qed.

Lemma read_content_length :
  forall d stack cur f d',
    read_content stack cur d = Some (f, d') ->
    List.length d' < List.length d.
Proof.
  induction d as [|t d IH]; intros stack cur f d' H; [discriminate|].
  destruct t; cbn [read_content] in H;
    try (apply IH in H; cbn [List.length]; lia).
  destruct stack as [|[[name' attr'] up] stack'].
  - injection H as _ <-. cbn [List.length]. lia.
  - apply IH in H. cbn [List.length]. lia.
Qed.

Lemma DecodeElement_length {T} `{Unmarshal T} attr d (v : T) d' :
  Decoder_DecodeElement attr d = Some (v, d') ->
  List.length d' < List.length d.
Proof.
  unfold Decoder_DecodeElement.
  destruct (read_content [] [] d) as [[f d'']|] eqn:E; [|discriminate].
  intros H1. injection H1 as _ <-. eapply read_content_length, E.
Qed.

Lemma remainder_tokens (f : list Node) (d : Decoder) :
  remainder d -> remainder (tokens f ++ d).
Proof.
  intros Hd. induction f as [|n f IH].
  - exact Hd.
  - rewrite tokens_cons, <- app_assoc. apply remainder_node, IH.
Qed.

(** Behind a start element, a well-formed input holds the content of the
    element, its end element, and a well-formed rest. *)
Lemma remainder_start name attr d :
  remainder (StartElement name attr :: d) ->
  exists children d0,
    d = tokens children ++ EndElement name :: d0 /\ remainder d0.
Proof.
  intros H. inversion H as [|n d1 Hd1 E|]; subst.
  destruct n; try discriminate E.
  rewrite tokens_of_Element in E. cbn [app] in E.
  injection E as -> -> <-.
  exists children, d1. split; [|exact Hd1].
  rewrite <- app_assoc. reflexivity.
Qed.

Lemma remainder_tail t d : remainder (t :: d) -> remainder d.
Proof.
  intros H. inversion H as [|n d1 Hd1 E|name d1 Hd1]; subst.
  - destruct n; cbn [tokens_of app] in E; injection E as _ <-;
      try exact Hd1.
    rewrite <- app_assoc. apply (remainder_tokens children).
    apply remainder_end, Hd1.
  - exact Hd1.
Qed.

(** [Skip] leaves a well-formed rest (the empty one when it runs into the
    end of the input). *)
Lemma remainder_Skip_loop d :
  remainder d -> forall depth, remainder (snd (Skip_loop depth d)).
Proof.
  induction 1 as [|n d _ IH|name d Hd IH]; intros depth.
  - constructor.
  - rewrite Skip_loop_node. apply IH.
  - cbn [Skip_loop]. destruct depth; [exact Hd | apply IH].
Qed.

Lemma remainder_document (doc : list Node) : remainder (tokens doc).
Proof.
  rewrite <- (app_nil_r (tokens doc)). apply remainder_tokens. constructor.
Qed.

End XmlFacts.

(** ** Facts about the TypeDictionary extractor *)

Module TypedictionaryFacts.
Import Os OsFacts Xml XmlShape XmlFacts TypedictionaryScan ExtractTypedictionary.
Local Open Scope list_scope.

(** The loop over the attributes, by the first [NodeId] attribute. *)
Lemma range_Attr_first nodeId se_Attr attrs s :
  range_Attr nodeId se_Attr attrs s
  = match first_NodeId attrs with
    | None => Continue s
    | Some v => if String.eqb v nodeId then found se_Attr s else Continue (Skip s)
    end.
Proof.
  induction attrs as [|attr attrs IH]; cbn [range_Attr first_NodeId].
  - reflexivity.
  - destruct (String.eqb (Local (AttrName attr)) "NodeId").
    + destruct (String.eqb (Xml.Value attr) nodeId); reflexivity.
    + apply IH.
Qed.

(** A turn of the loop on a token that is no match goes on, either with
    the next token or behind the element that the token opens. *)
Lemma loop_body_no_match nodeId t d out lg :
  is_match nodeId t = false ->
  loop_body nodeId (mkState (t :: d) out lg)
  = Continue (mkState (snd (Decoder_Skip d)) out lg)
  \/ loop_body nodeId (mkState (t :: d) out lg) = Continue (mkState d out lg).
Proof.
  intros Hm. destruct t; try (right; reflexivity).
  unfold loop_body. cbn [Decoder_Token decoder output log].
  cbn [is_match] in Hm.
  destruct (String.eqb (Local name) "UAVariable"); [|right; reflexivity].
  rewrite range_Attr_first. cbn [andb] in Hm.
  destruct (first_NodeId attr) as [v|]; [|right; reflexivity].
  rewrite Hm. left. reflexivity.
Qed.

Lemma forallb_suffix {A} (p : A -> bool) (pre l : list A) :
  forallb p (pre ++ l) = true -> forallb p l = true.
Proof. rewrite forallb_app. intros H. apply andb_prop in H. apply H. Qed.

(** Without a match in the input, the loop runs into the end of the input
    and ends the run there; the output path is as it was. *)
Lemma main_loop_no_match nodeId :
  forall fuel d out lg,
    forallb (fun t => negb (is_match nodeId t)) d = true ->
    List.length d < fuel ->
    main_loop nodeId fuel (mkState d out lg)
    = Some (Fatal, mkState [] out (lg ++ ["End of file encountered before finding it"%string])).
Proof.
  induction fuel as [|fuel IH]; intros d out lg Hall Hlen; [lia|].
  destruct d as [|t d].
  - reflexivity.
  - cbn [forallb] in Hall. apply andb_prop in Hall. destruct Hall as [Ht Hd].
    apply negb_true_iff in Ht. cbn [List.length] in Hlen. cbn [main_loop].
    destruct (loop_body_no_match nodeId t d out lg Ht) as [E|E]; rewrite E.
    + unfold Decoder_Skip.
      destruct (Skip_loop_suffix d 0) as [pre Hpre].
      pose proof (Skip_loop_length d 0).
      apply IH; [|lia].
      apply (forallb_suffix _ pre). rewrite <- Hpre. exact Hd.
    + apply IH; [exact Hd|lia].
Qed.

(** The scan passes what lies before the first match and stops there:
    the element is unmarshalled, the decoded payload is written, and the
    run returns with the decoder right behind the element. *)
Lemma main_loop_first_match nodeId name attr children rest :
  Local name = "UAVariable"%string ->
  first_NodeId attr = Some nodeId ->
  forall pre, before_match nodeId pre ->
  forall fuel out lg,
    List.length pre < fuel ->
    main_loop nodeId fuel
      (mkState (pre ++ StartElement name attr :: tokens children
                    ++ EndElement name :: rest) out lg)
    = let node : UAVariable := assign zero attr children in
      Some (Returned,
            mkState rest
              (Some (fst (Base64.NewDecoder_read (ByteString (Value node)))))
              (lg ++ ["Found! Now unmarshalling this node"%string;
                      ("DisplayName: " ++ DisplayName node)%string;
                      "Writing output file"%string])).
Proof.
  intros Hname Hid pre Hpre.
  induction Hpre as [|t pre Ht _ IH|name' attr' v children' pre Hn Hv Hne _ IH];
    intros fuel out lg Hlen.
  - destruct fuel as [|fuel]; [lia|].
    cbn [app main_loop]. unfold loop_body.
    cbn [Decoder_Token decoder output log].
    rewrite Hname, String.eqb_refl.
    rewrite range_Attr_first, Hid, String.eqb_refl.
    unfold found. cbn [Printf decoder output log].
    rewrite DecodeElement_element.
    rewrite Create_empty. unfold Copy. rewrite WriteString_empty.
    cbn [decoder log]. repeat rewrite <- app_assoc. reflexivity.
  - destruct fuel as [|fuel]; [lia|]. cbn [List.length] in Hlen.
    cbn [app main_loop].
    assert (E : loop_body nodeId
                  (mkState (t :: pre ++ StartElement name attr :: tokens children
                              ++ EndElement name :: rest) out lg)
                = Continue (mkState (pre ++ StartElement name attr :: tokens children
                              ++ EndElement name :: rest) out lg)).
    { destruct t; try reflexivity.
      unfold loop_body. cbn [Decoder_Token decoder output log].
      cbn [is_candidate] in Ht.
      destruct (String.eqb (Local name0) "UAVariable"); [|reflexivity].
      rewrite range_Attr_first. cbn [andb] in Ht.
      destruct (first_NodeId attr0); [discriminate|reflexivity]. }
    rewrite E. apply IH. lia.
  - destruct fuel as [|fuel]; [lia|].
    cbn [app main_loop]. unfold loop_body at 1.
    cbn [Decoder_Token decoder output log].
    rewrite Hn, String.eqb_refl, range_Attr_first, Hv.
    destruct (String.eqb_spec v nodeId) as [->|_]; [contradiction|].
    unfold Skip. cbn [decoder output log].
    rewrite <- app_assoc. cbn [app]. rewrite Skip_element. cbn [snd].
    apply IH. change (StartElement name' attr' :: tokens children' ++ EndElement name' :: pre)
      with ([StartElement name' attr'] ++ tokens children' ++ [EndElement name'] ++ pre) in Hlen.
    repeat rewrite length_app in Hlen. cbn [List.length] in Hlen. lia.
Qed.

Lemma found_stops se_Attr s s' : found se_Attr s <> Continue s'.
Proof.
  unfold found. destruct (Decoder_DecodeElement se_Attr _) as [[node d']|];
    [|discriminate].
  rewrite Create_empty. discriminate.
Qed.

(** A turn of the loop that goes on has consumed a token at least. *)
Lemma loop_body_Continue nodeId s s' :
  loop_body nodeId s = Continue s' ->
  List.length (decoder s') < List.length (decoder s).
Proof.
  destruct s as [d out lg]. unfold loop_body. cbn [decoder output log].
  destruct d as [|t d]; cbn [Decoder_Token]; [discriminate|].
  destruct t; try (intros H; injection H as <-; cbn [decoder List.length]; lia).
  destruct (String.eqb (Local name) "UAVariable").
  - rewrite range_Attr_first. destruct (first_NodeId attr) as [v|].
    + destruct (String.eqb v nodeId).
      * intros H. exfalso. exact (found_stops _ _ _ H).
      * intros H; injection H as <-. unfold Skip, Decoder_Skip.
        cbn [decoder List.length]. pose proof (Skip_loop_length d 0). lia.
    + intros H; injection H as <-; cbn [decoder List.length]; lia.
  - intros H; injection H as <-; cbn [decoder List.length]; lia.
Qed.

(** The loop of [main] ends within the fuel that [main] gives it. *)
Lemma main_loop_total nodeId :
  forall fuel s, List.length (decoder s) < fuel ->
                 exists r, main_loop nodeId fuel s = Some r.
Proof.
  induction fuel as [|fuel IH]; intros s Hlen; [lia|].
  cbn [main_loop]. destruct (loop_body nodeId s) as [s1|e s1] eqn:E; [|eauto].
  apply IH. apply loop_body_Continue in E. lia.
Qed.

Lemma main_total input nodeId dest : exists r, main input nodeId dest = Some r.
Proof.
  unfold main.
  destruct (main_loop_total nodeId (S (List.length input))
              (mkState input dest
                 [("Searching for the UAVariable with NodeID " ++ nodeId)%string]))
    as [[e s'] Hr]; [cbn [decoder]; lia|].
  rewrite Hr. eauto.
Qed.

(** A [UAVariable] with another identifier is skipped as a whole: the
    decoder stands right behind its end element afterwards. *)
Lemma loop_body_other_element nodeId name attr v children rest out lg :
  Local name = "UAVariable"%string ->
  first_NodeId attr = Some v ->
  v <> nodeId ->
  loop_body nodeId
    (mkState (StartElement name attr :: tokens children ++ EndElement name :: rest)
             out lg)
  = Continue (mkState rest out lg).
Proof.
  intros Hn Hv Hne. unfold loop_body. cbn [Decoder_Token decoder output log].
  rewrite Hn, String.eqb_refl, range_Attr_first, Hv.
  destruct (String.eqb_spec v nodeId) as [->|_]; [contradiction|].
  unfold Skip. cbn [decoder output log]. now rewrite Skip_element.
Qed.

End TypedictionaryFacts.

(** ** Facts about the scan of the data-type extractor *)

Module DatatypesScanFacts.
Import Os OsFacts Xml XmlShape XmlFacts ExtractDatatypes.
Local Open Scope list_scope.

Lemma decoder_Skip_length s : List.length (decoder (Skip s)) <= List.length (decoder s).
Proof. apply Skip_loop_length. Qed.

Lemma decoder_Skip_remainder s : remainder (decoder s) -> remainder (decoder (Skip s)).
Proof. intros H. apply remainder_Skip_loop, H. Qed.

(** A turn of the loop that goes on has consumed a token at least. *)
Lemma datatypes_loop_body_Continue s s' :
  loop_body s = Continue s' ->
  List.length (decoder s') < List.length (decoder s).
Proof.
  destruct s as [d f lg]. unfold loop_body. cbn [decoder outfile log].
  destruct d as [|t d]; cbn [Decoder_Token]; [discriminate|].
  destruct t; try (intros H; injection H as <-; cbn [decoder List.length]; lia).
  destruct (String.eqb (Local name) "UADataType").
  - destruct (Decoder_DecodeElement attr d) as [[node d']|] eqn:E; [|discriminate].
    apply DecodeElement_length in E.
    intros H; injection H as <-. cbn [decoder List.length].
    pose proof (Skip_loop_length d' 0) as H1.
    pose proof (Skip_loop_length (snd (Skip_loop 0 d')) 0) as H2.
    destruct (String.eqb (NodeId node) ""), (String.eqb (DisplayName node) "");
      unfold Skip, Printf, Decoder_Skip; cbn [decoder outfile log]; lia.
  - intros H; injection H as <-; cbn [decoder List.length]; lia.
Qed.

(** On well-formed input a turn of the loop leaves well-formed input, and
    the loop stops only at the end of the input, by returning. *)
Lemma loop_body_remainder s :
  remainder (decoder s) ->
  match loop_body s with
  | Continue s' => remainder (decoder s')
  | Stop e s' =>
      e = Returned
      /\ log s' = log s ++ ["End of file encountered, done!"%string]
      /\ outfile s' = outfile s
  end.
Proof.
  destruct s as [d f lg]. unfold loop_body. cbn [decoder outfile log].
  destruct d as [|t d]; cbn [Decoder_Token]; intros R.
  - cbn. auto.
  - destruct t; try (cbn [decoder]; eapply remainder_tail, R).
    destruct (String.eqb (Local name) "UADataType");
      [|cbn [decoder]; eapply remainder_tail, R].
    apply remainder_start in R. destruct R as (children & d0 & -> & R0).
    rewrite DecodeElement_element. cbn [decoder].
    destruct (String.eqb (NodeId _) ""), (String.eqb (DisplayName _) "");
      repeat apply decoder_Skip_remainder; exact R0.
Qed.

Lemma main_loop_remainder :
  forall fuel s,
    remainder (decoder s) ->
    List.length (decoder s) < fuel ->
    exists s' lg,
      main_loop fuel s = Some (Returned, s')
      /\ log s' = lg ++ ["End of file encountered, done!"%string].
Proof.
  induction fuel as [|fuel IH]; intros s R Hlen; [lia|].
  cbn [main_loop]. pose proof (loop_body_remainder s R) as Hb.
  destruct (loop_body s) as [s1|e s1] eqn:E.
  - apply IH; [exact Hb|]. apply datatypes_loop_body_Continue in E. lia.
  - destruct Hb as (-> & Hl & _). eauto.
Qed.

(** The loop of [main] ends within the fuel that [main] gives it. *)
Lemma datatypes_main_loop_total :
  forall fuel s, List.length (decoder s) < fuel ->
                 exists r, main_loop fuel s = Some r.
Proof.
  induction fuel as [|fuel IH]; intros s Hlen; [lia|].
  cbn [main_loop]. destruct (loop_body s) as [s1|e s1] eqn:E; [|eauto].
  apply IH. apply datatypes_loop_body_Continue in E. lia.
Qed.

Lemma datatypes_main_total input dest : exists r, main input dest = Some r.
Proof.
  unfold main. destruct (OpenFile dest _) as [f|]; [|eauto].
  destruct (datatypes_main_loop_total (S (List.length input))
              (mkState input f ["Opening output file"%string;
                                "Searching for UADataType nodes"%string]))
    as [[e s'] Hr]; [cbn [decoder]; lia|].
  rewrite Hr. eauto.
Qed.

(** A data type with identifier and display name is unmarshalled and
    written, and the decoder stands right behind its end element. *)
Lemma loop_body_named_element name attr children rest f lg :
  Local name = "UADataType"%string ->
  NodeId (assign zero attr children) <> ""%string ->
  DisplayName (assign zero attr children) <> ""%string ->
  loop_body
    (mkState (StartElement name attr :: tokens children ++ EndElement name :: rest)
             f lg)
  = Continue (mkState rest (processOutputLine f (assign zero attr children)) lg).
Proof.
  intros Hn Hid Hlabel. unfold loop_body. cbn [Decoder_Token decoder outfile log].
  rewrite Hn, String.eqb_refl, DecodeElement_element.
  destruct (String.eqb_spec (NodeId (assign zero attr children)) "") as [E|_];
    [contradiction|].
  destruct (String.eqb_spec (DisplayName (assign zero attr children)) "") as [E|_];
    [contradiction|].
  reflexivity.
Qed.

End DatatypesScanFacts.

(** ** The scan of both programs: what holds and what does not *)

Module ScanClaims.
Import Os OsFacts Xml XmlShape XmlFacts TypedictionaryScan Examples.
Local Open Scope list_scope.

Module A := ExtractTypedictionary.
Module B := ExtractDatatypes.
#[local] Existing Instance A.Unmarshal_Value.
#[local] Existing Instance A.Unmarshal_UAVariable.
#[local] Existing Instance B.Unmarshal_UADataType.

(** C7: in the TypeDictionary extractor, a document none of whose start
    elements is a [UAVariable] with the identifier looked for makes the
    run end by [log.Fatalf] at the end of the input ('End of file
    encountered before finding it'), and the output path holds what it
    held before (the file is not even created); in the data-type
    extractor, every well-formed document makes the run end by [return]
    at the end of the input ('End of file encountered, done!'). *)
Theorem end_of_input_fatal_without_match_and_normal_for_datatypes
        (doc : list Node) (nodeId : string) (destA destB : Path) :
  no_match nodeId doc = true ->
  A.main (tokens doc) nodeId destA
  = Some (A.mkResult A.Fatal destA
            [("Searching for the UAVariable with NodeID " ++ nodeId)%string;
             "End of file encountered before finding it"%string])
  /\ exists r lg,
      B.main (tokens doc) destB = Some r
      /\ B.exit r = B.Returned
      /\ B.logged r = lg ++ ["End of file encountered, done!"%string].
Proof.
  intros Hno. split.
  - unfold A.main.
    rewrite (TypedictionaryFacts.main_loop_no_match nodeId); [reflexivity| |lia].
    exact Hno.
  - unfold B.main. cbn [OpenFile].
    assert (O : exists f, OpenFile destB (N.lor O_CREATE (N.lor O_TRUNC O_WRONLY)) = Some f)
      by (destruct destB; cbn; eauto).
    destruct O as [f ->].
    destruct (DatatypesScanFacts.main_loop_remainder
                (S (List.length (tokens doc)))
                (B.mkState (tokens doc) f
                   ["Opening output file"%string;
                    "Searching for UADataType nodes"%string]))
      as (s' & lg & Hrun & Hlog).
    + apply remainder_document.
    + cbn [B.decoder]. lia.
    + rewrite Hrun. exists (B.mkResult B.Returned (Some (content (B.outfile s'))) (B.log s')), lg.
      cbn [B.exit B.logged]. auto.
Qed.

Lemma end_of_input_witness :
  no_match "ns=1;i=8" doc_other = true
  /\ A.main (tokens doc_other) "ns=1;i=8" (Some "kept"%string)
     = Some (A.mkResult A.Fatal (Some "kept"%string)
               ["Searching for the UAVariable with NodeID ns=1;i=8"%string;
                "End of file encountered before finding it"%string]).
Proof.
  split; [reflexivity|].
  apply (end_of_input_fatal_without_match_and_normal_for_datatypes
           doc_other "ns=1;i=8" (Some "kept"%string) None).
  reflexivity.
Defined.

(** Against C8 as it is worded: in [doc_nested_match] the first (and only)
    element whose local name is [UAVariable] and whose identifier is the
    string looked for lies inside a [UAVariable] with another identifier.
    It is skipped with that element and never decoded; the run ends by
    [log.Fatalf] without an output file. *)
Lemma nested_first_match_is_not_decoded :
  existsb (is_match "ns=1;i=8") (tokens doc_nested_match) = true
  /\ A.main (tokens doc_nested_match) "ns=1;i=8" None
     = Some (A.mkResult A.Fatal None
               ["Searching for the UAVariable with NodeID ns=1;i=8"%string;
                "End of file encountered before finding it"%string]).
Proof. split; reflexivity. Qed.

(** C8, amended: when everything in front of a start element is passed by the scan
    (tokens that are no candidates, and whole [UAVariable] elements with
    another identifier), and the start element is a [UAVariable] whose
    first [NodeId] attribute is the string looked for, byte for byte, then
    this element is unmarshalled, its decoded payload becomes the content
    of the output file, and the run returns at once: the decoder stops
    right behind the element, and the result does not depend on anything
    that follows it. *)
Theorem first_match_is_decoded_and_ends_the_scan
        (nodeId : string) (pre : list Token) name attr
        (children : list Node) (rest : list Token) (dest : Path) :
  before_match nodeId pre ->
  Local name = "UAVariable"%string ->
  first_NodeId attr = Some nodeId ->
  let input := pre ++ StartElement name attr :: tokens children
                   ++ EndElement name :: rest in
  let node : A.UAVariable := assign zero attr children in
  let payload := fst (Base64.NewDecoder_read (A.ByteString (A.Value node))) in
  let lg := [("Searching for the UAVariable with NodeID " ++ nodeId)%string;
             "Found! Now unmarshalling this node"%string;
             ("DisplayName: " ++ A.DisplayName node)%string;
             "Writing output file"%string] in
  A.main_loop nodeId (S (List.length input))
    (A.mkState input dest [("Searching for the UAVariable with NodeID " ++ nodeId)%string])
  = Some (A.Returned, A.mkState rest (Some payload) lg)
  /\ A.main input nodeId dest = Some (A.mkResult A.Returned (Some payload) lg).
Proof.
  intros Hpre Hname Hid input node payload lg.
  assert (E : A.main_loop nodeId (S (List.length input))
                (A.mkState input dest
                   [("Searching for the UAVariable with NodeID " ++ nodeId)%string])
              = Some (A.Returned, A.mkState rest (Some payload) lg)).
  { unfold input.
    rewrite (TypedictionaryFacts.main_loop_first_match
               nodeId name attr children rest Hname Hid pre Hpre).
    - reflexivity.
    - rewrite length_app. cbn [List.length]. lia. }
  split; [exact E|].
  unfold A.main. fold input. rewrite E. reflexivity.
Qed.

Lemma first_match_witness :
  A.main (tokens (doc_dictionary ("SGVs" ++ nl ++ "bG8=")%string)) "ns=1;i=8" None
  = Some (A.mkResult A.Returned (Some "Hello"%string)
            ["Searching for the UAVariable with NodeID ns=1;i=8"%string;
             "Found! Now unmarshalling this node"%string;
             "DisplayName: TypeDictionary"%string;
             "Writing output file"%string]).
Proof.
  refine (proj2 (first_match_is_decoded_and_ends_the_scan
            "ns=1;i=8"
            (StartElement (mkName "" "UANodeSet") []
             :: StartElement (mkName "" "UAVariable")
                  [mkAttr (mkName "" "NodeId") "ns=1;i=7"]
             :: tokens [elem "DisplayName" [] [Text "Other"]]
             ++ EndElement (mkName "" "UAVariable") :: [])
            (mkName "" "UAVariable") [mkAttr (mkName "" "NodeId") "ns=1;i=8"]
            [elem "DisplayName" [] [Text "TypeDictionary"];
             elem "Value" [] [elem "ByteString" [] [Text ("SGVs" ++ nl ++ "bG8=")%string]]]
            (tokens [elem "UAVariable" [("NodeId", "ns=1;i=8")]
                       [elem "Value" [] [elem "ByteString" [] [Text "QUJD"]]]]
             ++ [EndElement (mkName "" "UANodeSet")])
            None _ eq_refl eq_refl)).
  apply before_token; [reflexivity|].
  apply (before_other "ns=1;i=8" _ _ "ns=1;i=7"%string);
    [reflexivity | reflexivity | discriminate | apply before_nil].
Defined.

(** C4, on the code: a matched variable whose payload is [!!!!], which is
    not base64, does not make the run fail; the run returns as after a
    good payload and leaves an empty output file.  The error that
    [io.Copy] reports is not looked at. *)
Theorem corrupt_payload_is_not_reported :
  Base64.NewDecoder_read "!!!!" = (""%string, Some Base64.CorruptInputError)
  /\ A.main (tokens (doc_dictionary "!!!!")) "ns=1;i=8" None
     = Some (A.mkResult A.Returned (Some ""%string)
               ["Searching for the UAVariable with NodeID ns=1;i=8"%string;
                "Found! Now unmarshalling this node"%string;
                "DisplayName: TypeDictionary"%string;
                "Writing output file"%string]).
Proof. split; reflexivity. Qed.

(** C1, on the code: the data type without display name is logged as
    skipped, and a line is written for it all the same ([,7,DataType]):
    after the two checks [main] goes on to [processOutputLine]. *)
Theorem record_without_label_is_written :
  B.main (tokens doc_unnamed_last) None
  = Some (B.mkResult B.Returned
            (Some ("Simple,1001,DataType" ++ nl ++ ",7,DataType" ++ nl)%string)
            ["Opening output file"%string;
             "Searching for UADataType nodes"%string;
             "Found UADataType (NodeId ns=1;i=7) without DisplayName, skipping"%string;
             "End of file encountered, done!"%string]).
Proof. reflexivity. Qed.

(** C2, on the code: the decoder stands behind the start element of the
    node set, in front of a data type without display name and its
    sibling.  One turn of the loop unmarshals the first data type and then
    calls [Skip], which reads on to the end element of the node set: the
    decoder is empty afterwards, the sibling is consumed unseen, and the
    run writes no line for it. *)
Theorem skip_after_decode_consumes_the_sibling :
  let unnamed := elem "UADataType" [("NodeId", "ns=1;i=7")] [] in
  let sibling := elem "UADataType" [("NodeId", "ns=2;i=1001")]
                      [elem "DisplayName" [] [Text "Simple"]] in
  let close := [EndElement (mkName "" "UANodeSet")] in
  let f := mkFile "" 0 false in
  B.loop_body (B.mkState (tokens [unnamed; sibling] ++ close) f [])
  = B.Continue
      (B.mkState [] (mkFile ("," ++ "7,DataType" ++ nl)%string 12 false)
         ["Found UADataType (NodeId ns=1;i=7) without DisplayName, skipping"%string])
  /\ B.main (tokens doc_unnamed_first) None
     = Some (B.mkResult B.Returned (Some ("," ++ "7,DataType" ++ nl)%string)
               ["Opening output file"%string;
                "Searching for UADataType nodes"%string;
                "Found UADataType (NodeId ns=1;i=7) without DisplayName, skipping"%string;
                "End of file encountered, done!"%string]).
Proof. split; reflexivity. Qed.

(** C3, on the code: what the output path held before the run has no
    influence on what it holds afterwards: the file is opened with
    [O_TRUNC] and without [O_APPEND], so the run starts from an empty file.
    With an input without data types the old content is simply lost. *)
Theorem output_file_is_truncated (input : Decoder) (old : string) :
  B.main input (Some old) = B.main input None
  /\ B.main [] (Some old)
     = Some (B.mkResult B.Returned (Some ""%string)
               ["Opening output file"%string;
                "Searching for UADataType nodes"%string;
                "End of file encountered, done!"%string]).
Proof. split; reflexivity. Qed.

End ScanClaims.

(** ** Facts about the field normaliser *)

Module NormalizerFacts.
Import StringFacts Os ExtractDatatypes Normalizer.

(** The normaliser, by its steps. *)
Lemma normalizeFields_steps (node : UADataType) :
  normalizeFields node
  = (csv_field (matched_DisplayName node), csv_field (stripped_NodeId node)).
Proof. reflexivity. Qed.

(** A word character is none of the characters the CSV reader acts on. *)
Lemma is_word_plain (c : ascii) :
  is_word c = true ->
  Ascii.eqb c comma = false /\ Ascii.eqb c newline = false
  /\ Ascii.eqb c dquote = false /\ Ascii.eqb c carriage_return = false.
Proof.
  destruct c as [[] [] [] [] [] [] [] []]; vm_compute; intros H;
    try discriminate H; repeat split.
Qed.

Lemma special_cons c s :
  containsSpecialChars (String c s) = false ->
  is_word c = true /\ containsSpecialChars s = false.
Proof.
  cbn [containsSpecialChars]. intros H. apply orb_false_elim in H.
  destruct H as [H1 H2]. apply negb_false_iff in H1. auto.
Qed.

(** Doubling the quotes neither adds nor removes a special character. *)
Lemma special_Replace (x : string) :
  containsSpecialChars (Replace x dquote qq) = containsSpecialChars x.
Proof.
  induction x as [|c x IH]; [reflexivity|].
  cbn [Replace]. destruct (Ascii.eqb_spec c dquote) as [->|_].
  - reflexivity.
  - cbn [containsSpecialChars]. now rewrite IH.
Qed.

Lemma quote_is_special (x : string) :
  ContainsRune x dquote = true -> containsSpecialChars x = true.
Proof.
  induction x as [|c x IH]; [discriminate|].
  cbn [ContainsRune containsSpecialChars].
  destruct (Ascii.eqb_spec c dquote) as [->|_]; [reflexivity|].
  cbn [orb]. intros H. rewrite (IH H). apply orb_true_r.
Qed.

Lemma plain_no_quote (x : string) :
  containsSpecialChars x = false -> ContainsRune x dquote = false.
Proof.
  intros H. destruct (ContainsRune x dquote) eqn:E; [|reflexivity].
  apply quote_is_special in E. congruence.
Qed.

Lemma Replace_no_quote (x : string) :
  ContainsRune x dquote = false -> Replace x dquote qq = x.
Proof.
  induction x as [|c x IH]; [reflexivity|].
  cbn [ContainsRune Replace]. intros H. apply orb_false_elim in H.
  destruct H as [H1 H2]. rewrite H1, (IH H2). reflexivity.
Qed.

Lemma length_Replace (x : string) :
  String.length x <= String.length (Replace x dquote qq).
Proof.
  induction x as [|c x IH]; [reflexivity|].
  cbn [Replace].
  destruct (Ascii.eqb c dquote);
    [rewrite length_append; change (String.length qq) with 2|];
    cbn [String.length]; lia.
Qed.

(** A field without special characters is emitted as it is. *)
Lemma csv_field_plain (x : string) :
  containsSpecialChars x = false -> csv_field x = x.
Proof.
  intros H. unfold csv_field. fold qq.
  rewrite special_Replace, H. apply Replace_no_quote, plain_no_quote, H.
Qed.

(** A field with a special character is emitted in quotes, its quotes
    doubled. *)
Lemma csv_field_special (x : string) :
  containsSpecialChars x = true ->
  csv_field x = Sprintf_quoted (Replace x dquote qq).
Proof.
  intros H. unfold csv_field. fold qq. now rewrite special_Replace, H.
Qed.

Lemma special_csv_field (x : string) :
  containsSpecialChars (csv_field x) = containsSpecialChars x.
Proof.
  destruct (containsSpecialChars x) eqn:E.
  - rewrite (csv_field_special x E). reflexivity.
  - rewrite (csv_field_plain x E). exact E.
Qed.

(** ** The line as the CSV reader sees it *)

Lemma parse_word (w : string) :
  forall st field done rest,
    st = Csv.FieldStart \/ st = Csv.Unquoted ->
    containsSpecialChars w = false ->
    Csv.parse st field done (w ++ String comma rest)
    = Csv.parse Csv.FieldStart "" (done ++ [(field ++ w)%string])%list rest.
Proof.
  induction w as [|c w IH]; intros st field done rest Hst Hw.
  - rewrite append_empty_r. destruct Hst as [-> | ->]; reflexivity.
  - apply special_cons in Hw. destruct Hw as [Hc Hw].
    destruct (is_word_plain c Hc) as (E1 & E2 & E3 & E4).
    cbn [String.append].
    assert (G : Csv.parse st field done (String c (w ++ String comma rest))
                = Csv.parse Csv.Unquoted (field ++ String c "") done
                            (w ++ String comma rest)).
    { destruct Hst as [-> | ->]; cbn [Csv.parse]; rewrite E1, E2, E3, E4;
        reflexivity. }
    rewrite G, IH; [|now right|exact Hw].
    rewrite append_assoc. reflexivity.
Qed.

Lemma parse_doubled (x : string) :
  forall field done rest,
    Csv.parse Csv.Quoted field done (Replace x dquote qq ++ rest)
    = Csv.parse Csv.Quoted (field ++ x) done rest.
Proof.
  induction x as [|c x IH]; intros field done rest.
  - rewrite append_empty_r. reflexivity.
  - cbn [Replace]. destruct (Ascii.eqb_spec c dquote) as [->|Hc].
    + cbn. rewrite IH.
      change (field ++ q) with (field ++ String dquote "").
      rewrite append_assoc. reflexivity.
    + cbn [String.append Csv.parse].
      apply Ascii.eqb_neq in Hc. rewrite Hc, IH, append_assoc. reflexivity.
Qed.

(** An emitted field, followed by a comma, is read back as the text it
    was made from. *)
Lemma parse_csv_field (x : string) (done : list string) (rest : string) :
  Csv.parse Csv.FieldStart "" done (csv_field x ++ String comma rest)
  = Csv.parse Csv.FieldStart "" (done ++ [x])%list rest.
Proof.
  destruct (containsSpecialChars x) eqn:E.
  - rewrite (csv_field_special x E). unfold Sprintf_quoted, q.
    cbn [String.append]. rewrite append_assoc.
    change (Csv.parse Csv.FieldStart "" done
              (String dquote (Replace x dquote qq
                                ++ String dquote "" ++ String comma rest)))
      with (Csv.parse Csv.Quoted "" done
              (Replace x dquote qq ++ String dquote (String comma rest))).
    rewrite parse_doubled. reflexivity.
  - rewrite (csv_field_plain x E), parse_word; auto.
Qed.

(** ** The normaliser applied twice *)

(** A string of word characters does not start with [ns=]. *)
Lemma cut_prefix_ns_plain (s : string) :
  containsSpecialChars s = false -> cut_prefix "ns=" s = None.
Proof.
  intros H.
  destruct s as [|a s]; [reflexivity|]. cbn [cut_prefix].
  destruct (Ascii.eqb "n" a); [|reflexivity].
  destruct s as [|b s]; [reflexivity|].
  destruct (Ascii.eqb "s" b); [|reflexivity].
  destruct s as [|c s]; [reflexivity|].
  destruct (Ascii.eqb_spec "="%char c) as [<-|_]; [|reflexivity].
  apply special_cons in H. destruct H as [_ H].
  apply special_cons in H. destruct H as [_ H].
  apply special_cons in H. destruct H as [H _]. discriminate H.
Qed.

Lemma stripped_plain (l i : string) :
  containsSpecialChars i = false -> stripped_NodeId (mkUADataType i l) = i.
Proof.
  intros H. unfold stripped_NodeId, reNamespaceAndI_remove, reNamespace_remove.
  cbn [NodeId]. now rewrite !(cut_prefix_ns_plain i H).
Qed.

Lemma stripped_quoted (l y : string) :
  stripped_NodeId (mkUADataType (String dquote y) l) = String dquote y.
Proof. reflexivity. Qed.

(** A field that holds a special character came out in quotes. *)
Lemma csv_field_starts_with_quote (x : string) :
  containsSpecialChars (csv_field x) = true ->
  exists y, csv_field x = String dquote y.
Proof.
  rewrite special_csv_field. intros H. rewrite (csv_field_special x H).
  eexists. reflexivity.
Qed.

Lemma length_csv_field_quote (x : string) :
  ContainsRune x dquote = true ->
  String.length x + 2 <= String.length (csv_field x).
Proof.
  intros H. rewrite (csv_field_special x (quote_is_special x H)).
  unfold Sprintf_quoted. rewrite !length_append.
  pose proof (length_Replace x). change (String.length q) with 1. lia.
Qed.

(** When the label or the stripped identifier holds a quote, the label
    field is longer than the label. *)
Lemma label_grows (node : UADataType) :
  ContainsRune (DisplayName node) dquote = true
  \/ ContainsRune (stripped_NodeId node) dquote = true ->
  String.length (DisplayName node) < String.length (fst (normalizeFields node)).
Proof.
  rewrite normalizeFields_steps. cbn [fst]. unfold matched_DisplayName.
  destruct (ContainsRune (DisplayName node) dquote) eqn:EL.
  - intros _. rewrite andb_false_r.
    pose proof (length_csv_field_quote _ EL). lia.
  - intros [H|H]; [discriminate|]. rewrite H. cbn [andb negb].
    assert (Q : ContainsRune (Sprintf_quoted (DisplayName node)) dquote = true)
      by reflexivity.
    pose proof (length_csv_field_quote _ Q) as G.
    unfold Sprintf_quoted in G at 1. rewrite !length_append in G.
    change (String.length q) with 1 in G. lia.
Qed.

End NormalizerFacts.

(** ** The field normaliser: what holds and what does not *)

Module NormalizerClaims.
Import StringFacts Os ExtractDatatypes Normalizer NormalizerFacts Examples.

(** The count of C5 does not hold: the identifier field of the record with
    identifier [demo_NodeId] is [demo_field], and that is not eleven
    characters long. *)
Lemma demo_field_is_not_eleven_characters :
  snd (normalizeFields (mkUADataType demo_NodeId "Demo")) = demo_field
  /\ String.length (snd (normalizeFields (mkUADataType demo_NodeId "Demo"))) <> 11.
Proof. split; [reflexivity | discriminate]. Qed.

(** C5, amended: for the record with identifier [demo_NodeId] and any
    label, the name space prefix is stripped up to [s=], the quotes are
    doubled and the whole is put in quotes: the identifier field is
    [demo_field], which has twelve characters. *)
Theorem demo_identifier_field (label : string) :
  stripped_NodeId (mkUADataType demo_NodeId label) = "s=" ++ q ++ "Demo" ++ q
  /\ snd (normalizeFields (mkUADataType demo_NodeId label)) = demo_field
  /\ String.length (snd (normalizeFields (mkUADataType demo_NodeId label))) = 12.
Proof. repeat split. Qed.

(** C9: for the record with identifier [ns=2;i=1001] and label [Simple],
    the prefix [ns=2;i=] is stripped, neither field is quoted, and the
    line written is [Simple,1001,DataType] with a line feed. *)
Theorem simple_record_line :
  stripped_NodeId (mkUADataType "ns=2;i=1001" "Simple") = "1001"
  /\ normalizeFields (mkUADataType "ns=2;i=1001" "Simple") = ("Simple", "1001")
  /\ outputLine (mkUADataType "ns=2;i=1001" "Simple")
     = "Simple,1001,DataType" ++ nl
  /\ forall outfile,
      processOutputLine outfile (mkUADataType "ns=2;i=1001" "Simple")
      = WriteString outfile ("Simple,1001,DataType" ++ nl).
Proof. repeat split. Qed.

(** C10: for every record, the line written reads back as one CSV record
    of exactly three fields: the label (as matched to the identifier in
    step 3), the identifier without its name space prefix, and [DataType].
    Each of the first two fields is emitted as it is when it holds word
    characters only, and in quotes with its quotes doubled otherwise. *)
Theorem output_line_is_three_csv_fields (node : UADataType) :
  Csv.record (outputLine node)
  = Some [matched_DisplayName node; stripped_NodeId node; "DataType"]
  /\ normalizeFields node
     = (csv_field (matched_DisplayName node), csv_field (stripped_NodeId node))
  /\ forall x,
      csv_field x
      = if containsSpecialChars x
        then Sprintf_quoted (Replace x dquote (q ++ q))
        else x.
Proof.
  split; [|split].
  - unfold Csv.record, outputLine. rewrite normalizeFields_steps.
    change ("," ++ csv_field (stripped_NodeId node) ++ ",DataType" ++ nl)
      with (String comma (csv_field (stripped_NodeId node)
                            ++ String comma ("DataType" ++ nl))).
    rewrite !parse_csv_field. reflexivity.
  - apply normalizeFields_steps.
  - intros x. destruct (containsSpecialChars x) eqn:E.
    + apply csv_field_special, E.
    + apply csv_field_plain, E.
Qed.

(** The idempotence of C6 does not hold for every record: for the label [a b] (and the identifier [1]) the
    label field is [a b] in quotes; supplied again as a label, its quotes are
    doubled and it is quoted once more. *)
Lemma normalization_is_not_idempotent :
  normalizeFields (mkUADataType "1" "a b") = (q ++ "a b" ++ q, "1")
  /\ renormalize (normalizeFields (mkUADataType "1" "a b"))
     = (q ++ q ++ q ++ "a b" ++ q ++ q ++ q, "1")
  /\ renormalize (normalizeFields (mkUADataType "1" "a b"))
     <> normalizeFields (mkUADataType "1" "a b").
Proof. repeat split. discriminate. Qed.

(** C6, amended: applying the normaliser to its own output yields the same
    output exactly when neither output field holds a character outside
    [\w], that is, when neither field was put in quotes. *)
Theorem normalization_idempotent_iff_unquoted (node : UADataType) :
  renormalize (normalizeFields node) = normalizeFields node
  <-> containsSpecialChars (fst (normalizeFields node)) = false
      /\ containsSpecialChars (snd (normalizeFields node)) = false.
Proof.
  rewrite normalizeFields_steps. cbn [fst snd]. unfold renormalize. cbn [fst snd].
  set (l' := csv_field (matched_DisplayName node)).
  set (i' := csv_field (stripped_NodeId node)).
  split.
  - intros E.
    assert (G : String.length (fst (normalizeFields (mkUADataType i' l')))
                = String.length l') by (rewrite E; reflexivity).
    destruct (containsSpecialChars l') eqn:EL.
    + destruct (csv_field_starts_with_quote _ EL) as [y Hy]. fold l' in Hy.
      pose proof (label_grows (mkUADataType i' l')) as L. cbn [DisplayName] in L.
      rewrite Hy in L at 1. cbn [ContainsRune Ascii.eqb] in L.
      rewrite Ascii.eqb_refl in L. specialize (L (or_introl eq_refl)). lia.
    + destruct (containsSpecialChars i') eqn:EI; [|auto].
      destruct (csv_field_starts_with_quote _ EI) as [y Hy]. fold i' in Hy.
      pose proof (label_grows (mkUADataType i' l')) as L. cbn [DisplayName] in L.
      rewrite Hy in L at 1. rewrite stripped_quoted in L.
      cbn [ContainsRune] in L. rewrite Ascii.eqb_refl in L.
      specialize (L (or_intror eq_refl)). lia.
  - intros [EL EI]. rewrite normalizeFields_steps.
    unfold matched_DisplayName. rewrite (stripped_plain l' i' EI).
    rewrite (plain_no_quote i' EI). cbn [andb DisplayName].
    now rewrite (csv_field_plain l' EL), (csv_field_plain i' EI).
Qed.

Lemma normalization_idempotent_witness :
  renormalize (normalizeFields (mkUADataType "ns=2;i=1001" "Simple"))
  = normalizeFields (mkUADataType "ns=2;i=1001" "Simple").
Proof.
  apply (proj2 (normalization_idempotent_iff_unquoted
                  (mkUADataType "ns=2;i=1001" "Simple"))).
  split; reflexivity.
Defined.

End NormalizerClaims.

Module XmlEndFacts.
Import Xml XmlShape XmlFacts XmlEnd.
Local Open Scope list_scope.

(** Without the end element, [DecodeElement] runs into the end of the
    input. *)
Lemma read_content_unclosed :
  forall d stack cur,
    closes (List.length stack) d = false -> read_content stack cur d = None.
Proof.
  induction d as [|t d IH]; intros stack cur H; [reflexivity|].
  destruct t; cbn [closes read_content] in *; try (apply IH, H).
  destruct stack as [|[[name' attr'] up] stack']; cbn [List.length] in H.
  - discriminate H.
  - apply IH, H.
Qed.

Lemma DecodeElement_unclosed {T} `{Unmarshal T} attr (d : Decoder) :
  closes 0 d = false -> @Decoder_DecodeElement T _ attr d = None.
Proof.
  intros H0. unfold Decoder_DecodeElement.
  now rewrite (read_content_unclosed d [] [] H0).
Qed.

Lemma closes_node (n : Node) :
  forall depth d, closes depth (tokens_of n ++ d) = closes depth d.
Proof.
  induction n as [name attr children IH | | | |] using Node_induction;
    intros depth d; try reflexivity.
  rewrite tokens_of_Element. cbn [app closes].
  rewrite <- app_assoc. cbn [app].
  revert depth d. unfold tokens.
  induction IH as [|c cs Hc _ IHcs]; intros depth d.
  - reflexivity.
  - cbn [flat_map]. rewrite <- app_assoc. rewrite Hc. apply IHcs.
Qed.

(** Complete nodes do not close the element they lie in. *)
Lemma closes_tokens (f : list Node) :
  forall depth d, closes depth (tokens f ++ d) = closes depth d.
Proof.
  induction f as [|n f IH]; intros depth d.
  - reflexivity.
  - rewrite tokens_cons, <- app_assoc, closes_node. apply IH.
Qed.

End XmlEndFacts.

(** ** More about the TypeDictionary extractor *)

Module TypedictionaryMore.
Import Os OsFacts Xml XmlShape XmlFacts TypedictionaryScan ExtractTypedictionary.
Import TypedictionaryFacts ScanSteps Examples.
Local Open Scope list_scope.

Lemma reachesA_trans nodeId s1 s2 s3 :
  reachesA nodeId s1 s2 -> reachesA nodeId s2 s3 -> reachesA nodeId s1 s3.
Proof.
  induction 1 as [|s s1 s' E _ IH]; intros H; [exact H|].
  eapply reachesA_turn; [exact E | apply IH, H].
Qed.

(** Turns already made cost fuel, and no more than there were tokens. *)
Lemma main_loop_reaches nodeId s s' :
  reachesA nodeId s s' ->
  forall fuel, List.length (decoder s) < fuel ->
  exists fuel', List.length (decoder s') < fuel'
                /\ main_loop nodeId fuel s = main_loop nodeId fuel' s'.
Proof.
  induction 1 as [|s s1 s' E _ IH]; intros fuel Hlen.
  - exists fuel. auto.
  - destruct fuel as [|fuel]; [lia|].
    pose proof (loop_body_Continue _ _ _ E) as Hdec.
    destruct (IH fuel) as (fuel' & Hlen' & Hrun); [lia|].
    exists fuel'. split; [exact Hlen'|].
    cbn [main_loop]. rewrite E. exact Hrun.
Qed.

Lemma loop_body_not_candidate nodeId t d out lg :
  is_candidate t = false ->
  loop_body nodeId (mkState (t :: d) out lg) = Continue (mkState d out lg).
Proof.
  intros Ht. destruct t; try reflexivity.
  unfold loop_body. cbn [Decoder_Token decoder output log].
  cbn [is_candidate] in Ht.
  destruct (String.eqb (Local name) "UAVariable"); [|reflexivity].
  rewrite range_Attr_first. cbn [andb] in Ht.
  destruct (first_NodeId attr); [discriminate|reflexivity].
Qed.

(** The scan passes what lies before the first match, turn by turn. *)
Lemma reaches_before_match nodeId pre :
  before_match nodeId pre ->
  forall d out lg,
    reachesA nodeId (mkState (pre ++ d) out lg) (mkState d out lg).
Proof.
  induction 1 as [|t pre Ht _ IH|name attr v children pre Hn Hv Hne _ IH];
    intros d out lg.
  - apply reachesA_here.
  - eapply reachesA_turn; [|apply IH].
    cbn [app]. apply loop_body_not_candidate, Ht.
  - eapply reachesA_turn; [|apply IH].
    cbn [app]. rewrite <- app_assoc. cbn [app].
    eapply loop_body_other_element; eassumption.
Qed.

Lemma before_match_app nodeId a b :
  before_match nodeId a -> before_match nodeId b -> before_match nodeId (a ++ b).
Proof.
  induction 1 as [|t pre Ht _ IH|name attr v children pre Hn Hv Hne _ IH];
    intros Hb; cbn [app].
  - exact Hb.
  - apply before_token; auto.
  - rewrite <- app_assoc. cbn [app].
    eapply before_other; eauto.
Qed.

(** The output path is touched in the branch [found] only. *)
Lemma loop_body_output nodeId s :
  match loop_body nodeId s with
  | Continue s' => output s' = output s
  | Stop Fatal s' => output s' = output s
  | Stop Returned s' => exists c, output s' = Some c
  end.
Proof.
  destruct s as [d out lg]. unfold loop_body. cbn [decoder output log].
  destruct d as [|t d]; cbn [Decoder_Token]; [reflexivity|].
  destruct t; try reflexivity.
  destruct (String.eqb (Local name) "UAVariable"); [|reflexivity].
  rewrite range_Attr_first. destruct (first_NodeId attr) as [v|]; [|reflexivity].
  destruct (String.eqb v nodeId); [|reflexivity].
  unfold found. cbn [Printf decoder output log].
  destruct (Decoder_DecodeElement attr d) as [[node d']|]; [|reflexivity].
  rewrite Create_empty. cbn [output]. eauto.
Qed.

Lemma main_loop_output nodeId :
  forall fuel s e s',
    main_loop nodeId fuel s = Some (e, s') ->
    match e with
    | Fatal => output s' = output s
    | Returned => exists c, output s' = Some c
    end.
Proof.
  induction fuel as [|fuel IH]; intros s e s' H; [discriminate|].
  cbn [main_loop] in H. pose proof (loop_body_output nodeId s) as Hb.
  destruct (loop_body nodeId s) as [s1|e1 s1].
  - apply IH in H. destruct e; [exact H | congruence].
  - injection H as <- <-. exact Hb.
Qed.

End TypedictionaryMore.

(** ** Properties of the TypeDictionary extractor *)

Module TypedictionaryProperties.
Import Os OsFacts Xml XmlShape XmlFacts TypedictionaryScan ExtractTypedictionary.
Import TypedictionaryFacts TypedictionaryMore TypedictionaryCommand ScanSteps Examples.
Import XmlEnd XmlEndFacts.
Local Open Scope list_scope.

(** X1: the program ends for every command line, every input and every
    state of the output path: each turn of the scan loop consumes at least
    one token, so the turns that [main] allows are enough. *)
Theorem typedictionary_command_ends
        (cmdlineArgs : list string) (infile : option Decoder) (dest : Path) :
  exists r, command cmdlineArgs infile dest = Some r.
Proof.
  unfold command.
  destruct (negb (Nat.eqb (List.length cmdlineArgs) 3)); [eauto|].
  destruct infile as [input|]; [|eauto].
  destruct (main_total input (nth 1 cmdlineArgs ""%string) dest) as [r ->].
  eauto.
Qed.

(** X2: a run that ends by [log.Fatalf], or that is given a wrong number of
    arguments, or whose input file cannot be opened, leaves the output path
    as it was: the output file is created in the branch that found the
    node, and nowhere else. *)
Theorem output_path_untouched_unless_found
        (cmdlineArgs : list string) (infile : option Decoder) (dest : Path)
        (r : Result) :
  command cmdlineArgs infile dest = Some r ->
  exit r = Fatal \/ List.length cmdlineArgs <> 3 \/ infile = None ->
  written r = dest.
Proof.
  unfold command. intros Hrun Hcase.
  destruct (Nat.eqb_spec (List.length cmdlineArgs) 3) as [Hlen|Hlen]; cbn [negb] in Hrun.
  - destruct infile as [input|].
    + unfold main in Hrun.
      destruct (main_loop _ _ _) as [[e s']|] eqn:E; [|discriminate].
      injection Hrun as <-. cbn [exit written] in *.
      apply main_loop_output in E. cbn [output] in E.
      destruct Hcase as [He|[Hc|Hc]]; [|contradiction|discriminate].
      subst e. exact E.
    + injection Hrun as <-. reflexivity.
  - injection Hrun as <-. reflexivity.
Qed.

Lemma output_path_untouched_witness :
  written (mkResult Returned (Some "kept"%string)
             (printUsage ["Invalid number of command line arguments specified"%string]))
  = Some "kept"%string.
Proof.
  apply (output_path_untouched_unless_found
           ["in.xml"%string; "out.bsd"%string] (Some (tokens doc_other))
           (Some "kept"%string)).
  - reflexivity.
  - right. left. discriminate.
Defined.

(** X3: a match that lies inside a [UAVariable] with another identifier is
    never found: the outer element is skipped with all its content, whatever
    that content is, and when nothing else matches the run ends by
    [log.Fatalf] at the end of the input, the output path untouched. *)
Theorem match_inside_other_variable_is_skipped
        (nodeId : string) (pre : list Token) name attr (v : string)
        (children : list Node) (rest : list Token) (dest : Path) :
  before_match nodeId pre ->
  Local name = "UAVariable"%string ->
  first_NodeId attr = Some v ->
  v <> nodeId ->
  forallb (fun t => negb (is_match nodeId t)) rest = true ->
  main (pre ++ StartElement name attr :: tokens children ++ EndElement name :: rest)
       nodeId dest
  = Some (mkResult Fatal dest
            [("Searching for the UAVariable with NodeID " ++ nodeId)%string;
             "End of file encountered before finding it"%string]).
Proof.
  intros Hpre Hn Hv Hne Hrest. unfold main.
  set (input := pre ++ StartElement name attr :: tokens children
                    ++ EndElement name :: rest).
  assert (Hb : before_match nodeId
                 (pre ++ StartElement name attr :: tokens children
                      ++ [EndElement name])).
  { apply before_match_app; [exact Hpre|].
    eapply before_other; eauto. apply before_nil. }
  assert (Ein : input = (pre ++ StartElement name attr :: tokens children
                             ++ [EndElement name]) ++ rest).
  { unfold input. rewrite <- !app_assoc. cbn [app].
    rewrite <- app_assoc. reflexivity. }
  pose proof (reaches_before_match nodeId _ Hb rest dest
                [("Searching for the UAVariable with NodeID " ++ nodeId)%string])
    as Hreach.
  rewrite <- Ein in Hreach.
  destruct (main_loop_reaches nodeId _ _ Hreach (S (List.length input)))
    as (fuel' & Hlen' & Hrun); [cbn [decoder]; lia|].
  rewrite Hrun. cbn [decoder] in Hlen'.
  rewrite (main_loop_no_match nodeId fuel' rest dest _ Hrest Hlen').
  reflexivity.
Qed.

Lemma match_inside_other_variable_witness :
  main (tokens [elem "UAVariable" [("NodeId", "ns=1;i=7")]
                  [elem "UAVariable" [("NodeId", "ns=1;i=8")]
                     [elem "Value" [] [elem "ByteString" [] [Text "QUJD"]]]]])
       "ns=1;i=8" None
  = Some (mkResult Fatal None
            ["Searching for the UAVariable with NodeID ns=1;i=8"%string;
             "End of file encountered before finding it"%string]).
Proof.
  refine (match_inside_other_variable_is_skipped
            "ns=1;i=8" [] (mkName "" "UAVariable")
            [mkAttr (mkName "" "NodeId") "ns=1;i=7"] "ns=1;i=7"
            [elem "UAVariable" [("NodeId", "ns=1;i=8")]
               [elem "Value" [] [elem "ByteString" [] [Text "QUJD"]]]]
            [] None _ eq_refl eq_refl _ eq_refl).
  - apply before_nil.
  - discriminate.
Defined.

(** X4: when the input ends inside the element that matches, that is, when
    the end element that closes it never comes, wherever the input breaks
    off (right behind the start element, behind a complete child or inside
    a child), the run ends by [log.Fatalf] after 'DecodeElement failed', and
    the output file is not created. *)
Theorem input_ends_inside_the_match
        (nodeId : string) (pre : list Token) name attr
        (d : Decoder) (dest : Path) :
  before_match nodeId pre ->
  Local name = "UAVariable"%string ->
  first_NodeId attr = Some nodeId ->
  closes 0 d = false ->
  main (pre ++ StartElement name attr :: d) nodeId dest
  = Some (mkResult Fatal dest
            [("Searching for the UAVariable with NodeID " ++ nodeId)%string;
             "Found! Now unmarshalling this node"%string;
             "DecodeElement failed"%string]).
Proof.
  intros Hpre Hn Hid Hd. unfold main.
  set (input := pre ++ StartElement name attr :: d).
  pose proof (reaches_before_match nodeId _ Hpre
                (StartElement name attr :: d) dest
                [("Searching for the UAVariable with NodeID " ++ nodeId)%string])
    as Hreach.
  destruct (main_loop_reaches nodeId _ _ Hreach (S (List.length input)))
    as (fuel' & Hlen' & Hrun); [cbn [decoder]; unfold input; lia|].
  subst input. rewrite Hrun. cbn [decoder] in Hlen'.
  destruct fuel' as [|fuel']; [lia|].
  cbn [main_loop]. unfold loop_body. cbn [Decoder_Token decoder output log].
  rewrite Hn, String.eqb_refl, range_Attr_first, Hid, String.eqb_refl.
  unfold found. cbn [Printf decoder output log].
  rewrite (DecodeElement_unclosed attr d Hd). reflexivity.
Qed.

Lemma input_ends_inside_the_match_witness :
  main ([StartElement (mkName "" "UANodeSet") []]
        ++ StartElement (mkName "" "UAVariable")
             [mkAttr (mkName "" "NodeId") "ns=1;i=8"]
        :: [StartElement (mkName "" "DisplayName") [];
            CharData "Dict";
            EndElement (mkName "" "DisplayName");
            StartElement (mkName "" "Value") [];
            StartElement (mkName "" "ByteString") [];
            CharData "QUJ"])
       "ns=1;i=8" (Some "kept"%string)
  = Some (mkResult Fatal (Some "kept"%string)
            ["Searching for the UAVariable with NodeID ns=1;i=8"%string;
             "Found! Now unmarshalling this node"%string;
             "DecodeElement failed"%string]).
Proof.
  refine (input_ends_inside_the_match
            "ns=1;i=8" [StartElement (mkName "" "UANodeSet") []]
            (mkName "" "UAVariable") [mkAttr (mkName "" "NodeId") "ns=1;i=8"]
            [StartElement (mkName "" "DisplayName") [];
             CharData "Dict";
             EndElement (mkName "" "DisplayName");
             StartElement (mkName "" "Value") [];
             StartElement (mkName "" "ByteString") [];
             CharData "QUJ"]
            (Some "kept"%string) _ eq_refl eq_refl eq_refl).
  apply before_token; [reflexivity | apply before_nil].
Defined.

(** X5: a [UAVariable] whose first [NodeId] attribute is not the string
    looked for is skipped as a whole in one turn of the loop: afterwards the
    decoder stands right behind the end element of this element, and the
    output path and the log are as before. *)
Theorem other_variable_is_skipped_whole
        (nodeId : string) name attr (v : string) (children : list Node)
        (rest : list Token) (out : Path) (lg : list string) :
  Local name = "UAVariable"%string ->
  first_NodeId attr = Some v ->
  v <> nodeId ->
  loop_body nodeId
    (mkState (StartElement name attr :: tokens children ++ EndElement name :: rest)
             out lg)
  = Continue (mkState rest out lg).
Proof. apply loop_body_other_element. Qed.

Lemma other_variable_is_skipped_witness :
  loop_body "ns=1;i=8"
    (mkState (StartElement (mkName "" "UAVariable")
                [mkAttr (mkName "" "NodeId") "NS=1;I=8"]
              :: tokens [elem "DisplayName" [] [Text "Upper case"]]
              ++ EndElement (mkName "" "UAVariable")
              :: [CharData "next"]) None [])
  = Continue (mkState [CharData "next"] None []).
Proof.
  apply (other_variable_is_skipped_whole
           "ns=1;i=8" (mkName "" "UAVariable")
           [mkAttr (mkName "" "NodeId") "NS=1;I=8"] "NS=1;I=8").
  - reflexivity.
  - reflexivity.
  - discriminate.
Defined.

(** X6: of the attributes of a [UAVariable], only the first one with local
    name [NodeId] is compared with the string looked for; what follows it in
    the attribute list has no influence (the loop over the attributes is
    left by [break] or by [return]). *)
Theorem first_NodeId_attribute_decides
        (nodeId : string) (se_Attr pre : list Attr) (a : Attr)
        (post : list Attr) (s : State) :
  forallb (fun b => negb (String.eqb (Local (AttrName b)) "NodeId")) pre = true ->
  Local (AttrName a) = "NodeId"%string ->
  range_Attr nodeId se_Attr (pre ++ a :: post) s
  = if String.eqb (Xml.Value a) nodeId then found se_Attr s else Continue (Skip s).
Proof.
  intros Hpre Ha. induction pre as [|b pre IH]; cbn [app range_Attr].
  - rewrite Ha, String.eqb_refl.
    destruct (String.eqb (Xml.Value a) nodeId); reflexivity.
  - cbn [forallb] in Hpre. apply andb_prop in Hpre. destruct Hpre as [Hb Hpre].
    apply negb_true_iff in Hb. rewrite Hb. apply IH, Hpre.
Qed.

Lemma first_NodeId_attribute_witness :
  range_Attr "ns=1;i=8" []
    ([mkAttr (mkName "" "BrowseName") "x"]
     ++ mkAttr (mkName "a" "NodeId") "ns=1;i=7"
     :: [mkAttr (mkName "b" "NodeId") "ns=1;i=8"])
    (mkState [] None [])
  = Continue (Skip (mkState [] None [])).
Proof.
  apply (first_NodeId_attribute_decides
           "ns=1;i=8" [] [mkAttr (mkName "" "BrowseName") "x"]
           (mkAttr (mkName "a" "NodeId") "ns=1;i=7")
           [mkAttr (mkName "b" "NodeId") "ns=1;i=8"] (mkState [] None []));
    reflexivity.
Defined.

End TypedictionaryProperties.

(** ** More about the data-type extractor *)

Module DatatypesMore.
Import StringFacts Os OsFacts Xml XmlShape XmlFacts ExtractDatatypes.
Import DatatypesScanFacts DatatypesRecords ScanSteps.
Local Open Scope list_scope.

Lemma take_all (s : string) : take (String.length s) s = s.
Proof. induction s as [|c s IH]; cbn; [reflexivity | now rewrite IH]. Qed.

Lemma drop_beyond (s : string) (n : nat) : drop (String.length s + n) s = ""%string.
Proof.
  induction s as [|c s IH]; cbn [String.length Nat.add drop].
  - destruct n; reflexivity.
  - exact IH.
Qed.

(** A write to a file whose offset is at its end adds the bytes at the end,
    and the offset is at the end again. *)
Lemma WriteString_at_end (f : File) (s : string) :
  at_end f ->
  content (WriteString f s) = (content f ++ s)%string /\ at_end (WriteString f s).
Proof.
  unfold at_end, WriteString. intros H. destruct (append_mode f); cbn [content offset].
  - auto.
  - rewrite H, take_all, drop_beyond, append_empty_r, length_append. auto.
Qed.

Lemma write_records (nodes : list UADataType) :
  forall f, at_end f ->
            content (fold_left processOutputLine nodes f)
            = (content f ++ lines nodes)%string.
Proof.
  induction nodes as [|node nodes IH]; intros f H; cbn [fold_left lines].
  - now rewrite append_empty_r.
  - destruct (WriteString_at_end f (outputLine node) H) as [Hc Ha].
    unfold processOutputLine at 2. rewrite (IH _ Ha), Hc.
    apply append_assoc.
Qed.

Lemma OpenFile_truncating (dest : Path) :
  OpenFile dest (N.lor O_CREATE (N.lor O_TRUNC O_WRONLY)) = Some (mkFile "" 0 false).
Proof. destruct dest; reflexivity. Qed.

Lemma main_loop_reachesB s s' :
  reachesB s s' ->
  forall fuel, List.length (decoder s) < fuel ->
  exists fuel', List.length (decoder s') < fuel'
                /\ main_loop fuel s = main_loop fuel' s'.
Proof.
  induction 1 as [|s s1 s' E _ IH]; intros fuel Hlen.
  - exists fuel. auto.
  - destruct fuel as [|fuel]; [lia|].
    pose proof (datatypes_loop_body_Continue _ _ E) as Hdec.
    destruct (IH fuel) as (fuel' & Hlen' & Hrun); [lia|].
    exists fuel'. split; [exact Hlen'|].
    cbn [main_loop]. rewrite E. exact Hrun.
Qed.

Lemma reachesB_trans s1 s2 s3 : reachesB s1 s2 -> reachesB s2 s3 -> reachesB s1 s3.
Proof.
  induction 1 as [|s s1 s' E _ IH]; intros H; [exact H|].
  eapply reachesB_turn; [exact E | apply IH, H].
Qed.

(** A token that does not start a data type is passed in one turn. *)
Lemma loop_body_other_token t d f lg :
  starts_datatype t = false ->
  loop_body (mkState (t :: d) f lg) = Continue (mkState d f lg).
Proof.
  intros Ht. destruct t; try reflexivity.
  unfold loop_body. cbn [Decoder_Token decoder outfile log].
  cbn [starts_datatype] in Ht. rewrite Ht. reflexivity.
Qed.

Lemma reaches_other_tokens (pre : list Token) :
  forallb (fun t => negb (starts_datatype t)) pre = true ->
  forall d f lg, reachesB (mkState (pre ++ d) f lg) (mkState d f lg).
Proof.
  induction pre as [|t pre IH]; intros Hpre d f lg.
  - apply reachesB_here.
  - cbn [forallb] in Hpre. apply andb_prop in Hpre. destruct Hpre as [Ht Hpre].
    apply negb_true_iff in Ht.
    eapply reachesB_turn; [|apply IH, Hpre].
    cbn [app]. apply loop_body_other_token, Ht.
Qed.

Lemma complete_fields (node : UADataType) :
  complete node = true -> NodeId node <> ""%string /\ DisplayName node <> ""%string.
Proof.
  unfold complete. intros H. apply andb_prop in H. destruct H as [H1 H2].
  apply negb_true_iff in H1, H2.
  split; intros E; rewrite E in *; discriminate.
Qed.

(** The scan of a complete node writes the lines of its data types and
    stands behind the node afterwards. *)
Lemma reaches_node (n : Node) :
  forallb complete (records_of n) = true ->
  forall d f lg,
    reachesB (mkState (tokens_of n ++ d) f lg)
             (mkState d (fold_left processOutputLine (records_of n) f) lg).
Proof.
  induction n as [name attr children IH | | | |] using Node_induction;
    intros Hc d f lg;
    try (eapply reachesB_turn; [apply loop_body_other_token; reflexivity|];
         apply reachesB_here).
  rewrite tokens_of_Element. cbn [records_of] in *. cbn [app].
  rewrite <- app_assoc. cbn [app].
  destruct (String.eqb_spec (Local name) "UADataType") as [Hn|Hn].
  - cbn [forallb] in Hc. rewrite andb_true_r in Hc.
    destruct (complete_fields _ Hc) as [Hid Hlabel].
    eapply reachesB_turn; [|apply reachesB_here].
    cbn [fold_left]. apply loop_body_named_element; assumption.
  - eapply reachesB_turn.
    { apply loop_body_other_token. cbn [starts_datatype].
      now apply String.eqb_neq. }
    assert (G : forall f0,
               reachesB (mkState (tokens children ++ EndElement name :: d) f0 lg)
                        (mkState (EndElement name :: d)
                           (fold_left processOutputLine
                              (flat_map records_of children) f0) lg)).
    { clear f. unfold tokens. induction IH as [|c cs Hcn _ IHcs]; intros f0.
      - apply reachesB_here.
      - cbn [flat_map] in *. rewrite forallb_app in Hc.
        apply andb_prop in Hc. destruct Hc as [Hc1 Hc2].
        rewrite <- app_assoc, fold_left_app.
        eapply reachesB_trans; [apply Hcn, Hc1 | apply IHcs, Hc2]. }
    eapply reachesB_trans; [apply G|].
    eapply reachesB_turn; [apply loop_body_other_token; reflexivity|].
    apply reachesB_here.
Qed.

Lemma reaches_document (doc : list Node) :
  forallb complete (records doc) = true ->
  forall d f lg,
    reachesB (mkState (tokens doc ++ d) f lg)
             (mkState d (fold_left processOutputLine (records doc) f) lg).
Proof.
  unfold records, tokens. induction doc as [|n doc IH]; intros Hc d f lg.
  - apply reachesB_here.
  - cbn [flat_map] in *. rewrite forallb_app in Hc.
    apply andb_prop in Hc. destruct Hc as [Hc1 Hc2].
    rewrite <- app_assoc, fold_left_app.
    eapply reachesB_trans; [apply reaches_node, Hc1 | apply IH, Hc2].
Qed.

(** The loop ends by [log.Fatalf] only where [DecodeElement] fails. *)
Lemma loop_body_Fatal s s' :
  loop_body s = Stop Fatal s' ->
  log s' = log s ++ ["DecodeElement failed"%string] /\ outfile s' = outfile s.
Proof.
  destruct s as [d f lg]. unfold loop_body. cbn [decoder outfile log].
  destruct d as [|t d]; cbn [Decoder_Token]; [discriminate|].
  destruct t; try discriminate.
  destruct (String.eqb (Local name) "UADataType"); [|discriminate].
  destruct (Decoder_DecodeElement attr d) as [[node d']|]; [discriminate|].
  intros H. injection H as <-. cbn. auto.
Qed.

Lemma main_loop_Fatal :
  forall fuel s s',
    main_loop fuel s = Some (Fatal, s') ->
    exists lg, log s' = lg ++ ["DecodeElement failed"%string].
Proof.
  induction fuel as [|fuel IH]; intros s s' H; [discriminate|].
  cbn [main_loop] in H. destruct (loop_body s) as [s1|e s1] eqn:E.
  - eapply IH, H.
  - injection H as -> ->. apply loop_body_Fatal in E. destruct E as [E _]. eauto.
Qed.

End DatatypesMore.

(** ** Facts about the data-type extractor with failing writes *)

Module DatatypesSinkFacts.
Import StringFacts Os OsFacts Xml XmlShape XmlFacts ExtractDatatypes.
Local Open Scope list_scope.

(** A turn of the loop that goes on has consumed a token at least. *)
Lemma sink_loop_body_Continue sink n s s' n' :
  DatatypesSink.loop_body sink n s = (Continue s', n') ->
  List.length (decoder s') < List.length (decoder s).
Proof.
  destruct s as [d f lg]. unfold DatatypesSink.loop_body. cbn [decoder outfile log].
  destruct d as [|t d]; cbn [Decoder_Token]; [discriminate|].
  destruct t; try (intros H; injection H as <- _; cbn [decoder List.length]; lia).
  destruct (String.eqb (Local name) "UADataType").
  - destruct (Decoder_DecodeElement attr d) as [[node d']|] eqn:E; [|discriminate].
    apply DecodeElement_length in E.
    destruct (DatatypesSink.processOutputLine_err _ _ node) as [f' failed].
    destruct failed; [discriminate|].
    intros H; injection H as <- _. cbn [decoder List.length].
    pose proof (Skip_loop_length d' 0) as H1.
    pose proof (Skip_loop_length (snd (Skip_loop 0 d')) 0) as H2.
    destruct (String.eqb (NodeId node) ""), (String.eqb (DisplayName node) "");
      unfold Skip, Printf, Decoder_Skip; cbn [decoder outfile log]; lia.
  - intros H; injection H as <- _; cbn [decoder List.length]; lia.
Qed.

(** The loop ends by [log.Fatalf] where [DecodeElement] fails and where a
    write fails, and nowhere else. *)
Lemma sink_loop_body_Fatal sink n s s' n' :
  DatatypesSink.loop_body sink n s = (Stop Fatal s', n') ->
  exists lg,
    log s' = lg ++ ["DecodeElement failed"%string]
    \/ log s' = lg ++ ["Cannot write output file"%string].
Proof.
  destruct s as [d f lg]. unfold DatatypesSink.loop_body. cbn [decoder outfile log].
  destruct d as [|t d]; cbn [Decoder_Token]; [discriminate|].
  destruct t; try discriminate.
  destruct (String.eqb (Local name) "UADataType"); [|discriminate].
  destruct (Decoder_DecodeElement attr d) as [[node d']|].
  - destruct (DatatypesSink.processOutputLine_err _ _ node) as [f' failed].
    destruct failed; [|discriminate].
    intros H. injection H as <- _. cbn [Printf log]. eexists. right. reflexivity.
  - intros H. injection H as <- _. cbn [Printf log]. eexists. left. reflexivity.
Qed.

Lemma sink_main_loop_total sink :
  forall fuel n s, List.length (decoder s) < fuel ->
                   exists r, DatatypesSink.main_loop sink fuel n s = Some r.
Proof.
  induction fuel as [|fuel IH]; intros n s Hlen; [lia|].
  cbn [DatatypesSink.main_loop].
  destruct (DatatypesSink.loop_body sink n s) as [[s1|e s1] n1] eqn:E; [|eauto].
  apply IH. apply sink_loop_body_Continue in E. lia.
Qed.

Lemma sink_main_loop_Fatal sink :
  forall fuel n s s',
    DatatypesSink.main_loop sink fuel n s = Some (Fatal, s') ->
    exists lg,
      log s' = lg ++ ["DecodeElement failed"%string]
      \/ log s' = lg ++ ["Cannot write output file"%string].
Proof.
  induction fuel as [|fuel IH]; intros n s s' H; [discriminate|].
  cbn [DatatypesSink.main_loop] in H.
  destruct (DatatypesSink.loop_body sink n s) as [[s1|e s1] n1] eqn:E.
  - eapply IH, H.
  - injection H as -> ->. eapply sink_loop_body_Fatal, E.
Qed.

(** When every write succeeds, a turn of the loop is a turn of
    [ExtractDatatypes.loop_body]. *)
Lemma reliable_loop_body n s :
  fst (DatatypesSink.loop_body DatatypesSink.reliable n s) = loop_body s.
Proof.
  destruct s as [d f lg]. unfold DatatypesSink.loop_body, loop_body.
  cbn [decoder outfile log].
  destruct d as [|t d]; cbn [Decoder_Token]; [reflexivity|].
  destruct t; try reflexivity.
  destruct (String.eqb (Local name) "UADataType"); [|reflexivity].
  destruct (Decoder_DecodeElement attr d) as [[node d']|]; reflexivity.
Qed.

Lemma reliable_main_loop :
  forall fuel n s,
    DatatypesSink.main_loop DatatypesSink.reliable fuel n s = main_loop fuel s.
Proof.
  induction fuel as [|fuel IH]; intros n s; [reflexivity|].
  cbn [DatatypesSink.main_loop main_loop].
  rewrite <- (reliable_loop_body n s).
  destruct (DatatypesSink.loop_body DatatypesSink.reliable n s) as [[s1|e s1] n1];
    cbn [fst]; [apply IH | reflexivity].
Qed.

(** With writes that all succeed, the program with the write looked at is
    the program of [ExtractDatatypes]. *)
Lemma reliable_main input dest :
  DatatypesSink.main DatatypesSink.reliable input dest = main input dest.
Proof.
  unfold DatatypesSink.main, main.
  destruct (OpenFile dest _) as [f|]; [|reflexivity].
  now rewrite reliable_main_loop.
Qed.

End DatatypesSinkFacts.

(** ** Properties of the data-type extractor *)

Module DatatypesProperties.
Import StringFacts Os OsFacts Xml XmlShape XmlFacts ExtractDatatypes.
Import DatatypesScanFacts DatatypesRecords DatatypesMore DatatypesCommand.
Import ScanSteps Examples XmlEnd XmlEndFacts DatatypesSinkFacts.
Local Open Scope list_scope.

(** X7: the program ends for every command line, every input and every
    state of the output path: each turn of the scan loop consumes at least
    one token. *)
Theorem datatypes_command_ends
        (cmdlineArgs : list string) (infile : option Decoder) (dest : Path) :
  exists r, command cmdlineArgs infile dest = Some r.
Proof.
  unfold command.
  destruct (negb (Nat.eqb (List.length cmdlineArgs) 2)); [eauto|].
  destruct infile as [input|]; [|eauto].
  destruct (datatypes_main_total input dest) as [r ->]. eauto.
Qed.

(** X8: for a document in which every data type the scan meets has an
    identifier and a display name, the run returns, and the output file
    holds exactly the lines of these data types, in document order, whatever
    the output path held before.  (A data type inside a data type is not
    met: it is consumed with the outer one.) *)
Theorem complete_document_gives_its_lines (doc : list Node) (dest : Path) :
  forallb complete (records doc) = true ->
  main (tokens doc) dest
  = Some (mkResult Returned (Some (lines (records doc)))
            ["Opening output file"%string;
             "Searching for UADataType nodes"%string;
             "End of file encountered, done!"%string]).
Proof.
  intros Hc. unfold main. rewrite OpenFile_truncating.
  pose proof (reaches_document doc Hc [] (mkFile "" 0 false)
                ["Opening output file"%string;
                 "Searching for UADataType nodes"%string]) as Hreach.
  rewrite app_nil_r in Hreach.
  destruct (main_loop_reachesB _ _ Hreach (S (List.length (tokens doc))))
    as (fuel' & Hlen' & Hrun); [cbn [decoder]; lia|].
  rewrite Hrun. destruct fuel' as [|fuel']; [cbn [decoder List.length] in Hlen'; lia|].
  cbn [main_loop loop_body Decoder_Token decoder outfile log Printf app].
  rewrite write_records by reflexivity. reflexivity.
Qed.

Lemma complete_document_witness :
  main (tokens [elem "UANodeSet" []
                  [elem "UADataType" [("NodeId", "ns=2;i=1001")]
                     [elem "DisplayName" [] [Text "Simple"]];
                   elem "UAObject" [("NodeId", "ns=2;i=5")] [];
                   elem "UADataType" [("NodeId", "ns=2;i=1002")]
                     [elem "DisplayName" [] [Text "Other"]]]])
       (Some "old"%string)
  = Some (mkResult Returned
            (Some ("Simple,1001,DataType" ++ nl ++ "Other,1002,DataType" ++ nl)%string)
            ["Opening output file"%string;
             "Searching for UADataType nodes"%string;
             "End of file encountered, done!"%string]).
Proof.
  apply (complete_document_gives_its_lines
           [elem "UANodeSet" []
              [elem "UADataType" [("NodeId", "ns=2;i=1001")]
                 [elem "DisplayName" [] [Text "Simple"]];
               elem "UAObject" [("NodeId", "ns=2;i=5")] [];
               elem "UADataType" [("NodeId", "ns=2;i=1002")]
                 [elem "DisplayName" [] [Text "Other"]]]]
           (Some "old"%string)).
  reflexivity.
Defined.

(** X9: an input without any start element named [UADataType] gives a run
    that returns with an empty output file, also when the input breaks off
    in the middle of the document: the end of the tokens is taken as the
    end of the file, and the error of [decoder.Token] is not looked at. *)
Theorem input_without_datatypes_gives_empty_file (input : Decoder) (dest : Path) :
  forallb (fun t => negb (starts_datatype t)) input = true ->
  main input dest
  = Some (mkResult Returned (Some ""%string)
            ["Opening output file"%string;
             "Searching for UADataType nodes"%string;
             "End of file encountered, done!"%string]).
Proof.
  intros Hin. unfold main. rewrite OpenFile_truncating.
  pose proof (reaches_other_tokens input Hin [] (mkFile "" 0 false)
                ["Opening output file"%string;
                 "Searching for UADataType nodes"%string]) as Hreach.
  rewrite app_nil_r in Hreach.
  destruct (main_loop_reachesB _ _ Hreach (S (List.length input)))
    as (fuel' & Hlen' & Hrun); [cbn [decoder]; lia|].
  rewrite Hrun. destruct fuel' as [|fuel']; [cbn [decoder List.length] in Hlen'; lia|].
  reflexivity.
Qed.

Lemma input_without_datatypes_witness :
  main [StartElement (mkName "" "UANodeSet") [];
        StartElement (mkName "" "UAObject") [];
        CharData "cut off here"] (Some "old"%string)
  = Some (mkResult Returned (Some ""%string)
            ["Opening output file"%string;
             "Searching for UADataType nodes"%string;
             "End of file encountered, done!"%string]).
Proof.
  apply (input_without_datatypes_gives_empty_file
           [StartElement (mkName "" "UANodeSet") [];
            StartElement (mkName "" "UAObject") [];
            CharData "cut off here"] (Some "old"%string)).
  reflexivity.
Defined.

(** X10: however the writes to the output file go, the program ends, and it
    ends by [log.Fatalf] only after 'DecodeElement failed' (the input ends
    inside a data type) or after 'Cannot write output file' (a write
    failed); a wrong number of arguments, an input file that cannot be
    opened and every other end of the token stream end the run by
    [return]. *)
Theorem datatypes_fatal_only_in_DecodeElement_or_write
        (sink : DatatypesSink.Sink) (cmdlineArgs : list string)
        (infile : option Decoder) (dest : Path) :
  exists r,
    DatatypesSink.command sink cmdlineArgs infile dest = Some r
    /\ (exit r = Fatal ->
        exists lg,
          logged r = lg ++ ["DecodeElement failed"%string]
          \/ logged r = lg ++ ["Cannot write output file"%string]).
Proof.
  unfold DatatypesSink.command.
  destruct (negb (Nat.eqb (List.length cmdlineArgs) 2)).
  { eexists. split; [reflexivity|]. discriminate. }
  destruct infile as [input|]; [|eexists; split; [reflexivity|]; discriminate].
  unfold DatatypesSink.main. rewrite OpenFile_truncating.
  destruct (sink_main_loop_total sink (S (List.length input)) 0
              (mkState input (mkFile "" 0 false)
                 ["Opening output file"%string;
                  "Searching for UADataType nodes"%string]))
    as [[e s'] E]; [cbn [decoder]; lia|].
  rewrite E. eexists. split; [reflexivity|].
  cbn [exit logged]. intros ->.
  apply sink_main_loop_Fatal in E. destruct E as [lg [E|E]]; rewrite E;
    exists (("Opening input file " ++ nth 0 cmdlineArgs "")%string :: lg);
    [left | right]; reflexivity.
Qed.

Lemma datatypes_fatal_witness :
  exists r,
    DatatypesSink.command (fun _ => DatatypesSink.Failed 3)
      ["in.xml"%string; "out.csv"%string]
      (Some (tokens [elem "UADataType" [("NodeId", "ns=2;i=1001")]
                       [elem "DisplayName" [] [Text "Simple"]]]))
      None = Some r
    /\ (exit r = Fatal ->
        exists lg,
          logged r = lg ++ ["DecodeElement failed"%string]
          \/ logged r = lg ++ ["Cannot write output file"%string]).
Proof.
  apply (datatypes_fatal_only_in_DecodeElement_or_write
           (fun _ => DatatypesSink.Failed 3)
           ["in.xml"%string; "out.csv"%string]
           (Some (tokens [elem "UADataType" [("NodeId", "ns=2;i=1001")]
                            [elem "DisplayName" [] [Text "Simple"]]]))
           None).
Defined.

(** X11: when the input ends inside a data type that the scan meets first,
    that is, when the end element that closes it never comes, wherever the
    input breaks off (also inside a child of the data type), the run ends
    by [log.Fatalf] after 'DecodeElement failed'; no line is written for
    this data type. *)
Theorem input_ends_inside_a_datatype
        (pre : list Token) name attr (d : Decoder) (dest : Path) :
  forallb (fun t => negb (starts_datatype t)) pre = true ->
  Local name = "UADataType"%string ->
  closes 0 d = false ->
  main (pre ++ StartElement name attr :: d) dest
  = Some (mkResult Fatal (Some ""%string)
            ["Opening output file"%string;
             "Searching for UADataType nodes"%string;
             "DecodeElement failed"%string]).
Proof.
  intros Hpre Hn Hd. unfold main. rewrite OpenFile_truncating.
  pose proof (reaches_other_tokens pre Hpre
                (StartElement name attr :: d) (mkFile "" 0 false)
                ["Opening output file"%string;
                 "Searching for UADataType nodes"%string]) as Hreach.
  destruct (main_loop_reachesB _ _ Hreach
              (S (List.length (pre ++ StartElement name attr :: d))))
    as (fuel' & Hlen' & Hrun); [cbn [decoder]; lia|].
  rewrite Hrun. destruct fuel' as [|fuel']; [cbn [decoder List.length] in Hlen'; lia|].
  cbn [main_loop]. unfold loop_body. cbn [Decoder_Token decoder outfile log].
  rewrite Hn, String.eqb_refl.
  rewrite (DecodeElement_unclosed attr d Hd).
  reflexivity.
Qed.

Lemma input_ends_inside_a_datatype_witness :
  main ([StartElement (mkName "" "UANodeSet") []]
        ++ StartElement (mkName "" "UADataType")
             [mkAttr (mkName "" "NodeId") "ns=2;i=1001"]
        :: [StartElement (mkName "" "DisplayName") []; CharData "Sim"]) None
  = Some (mkResult Fatal (Some ""%string)
            ["Opening output file"%string;
             "Searching for UADataType nodes"%string;
             "DecodeElement failed"%string]).
Proof.
  apply (input_ends_inside_a_datatype
           [StartElement (mkName "" "UANodeSet") []]
           (mkName "" "UADataType") [mkAttr (mkName "" "NodeId") "ns=2;i=1001"]
           [StartElement (mkName "" "DisplayName") []; CharData "Sim"] None);
    reflexivity.
Defined.

(** X12: [processOutputLine] adds the line at the end of the file and
    changes nothing of what the file held, provided the write offset of the
    file is at its end; and the offset is at the end again afterwards. *)
Theorem processOutputLine_appends (outfile : File) (node : UADataType) :
  at_end outfile ->
  content (processOutputLine outfile node) = (content outfile ++ outputLine node)%string
  /\ at_end (processOutputLine outfile node).
Proof. intros H. apply WriteString_at_end, H. Qed.

Lemma processOutputLine_appends_witness :
  content (processOutputLine (mkFile "A,1,DataType" 12 false)
                             (mkUADataType "ns=2;i=1001" "Simple"))
  = ("A,1,DataType" ++ outputLine (mkUADataType "ns=2;i=1001" "Simple"))%string.
Proof.
  apply (processOutputLine_appends (mkFile "A,1,DataType" 12 false)
           (mkUADataType "ns=2;i=1001" "Simple")).
  reflexivity.
Defined.

(** X13: a data type with identifier and display name is handled in one
    turn of the loop: its line is written, and the decoder stands right
    behind the end element of the data type, so that nothing of what
    follows is consumed. *)
Theorem complete_datatype_is_handled_whole
        name attr (children : list Node) (rest : list Token)
        (f : File) (lg : list string) :
  Local name = "UADataType"%string ->
  complete (assign zero attr children) = true ->
  loop_body
    (mkState (StartElement name attr :: tokens children ++ EndElement name :: rest)
             f lg)
  = Continue (mkState rest (processOutputLine f (assign zero attr children)) lg).
Proof.
  intros Hn Hc. destruct (complete_fields _ Hc) as [Hid Hlabel].
  apply loop_body_named_element; assumption.
Qed.

Lemma complete_datatype_witness :
  loop_body
    (mkState (StartElement (mkName "" "UADataType")
                [mkAttr (mkName "" "NodeId") "ns=2;i=1001"]
              :: tokens [elem "DisplayName" [] [Text "Simple"]]
              ++ EndElement (mkName "" "UADataType") :: [CharData "next"])
             (mkFile "" 0 false) [])
  = Continue (mkState [CharData "next"]
                (processOutputLine (mkFile "" 0 false)
                   (mkUADataType "ns=2;i=1001" "Simple")) []).
Proof.
  apply (complete_datatype_is_handled_whole
           (mkName "" "UADataType") [mkAttr (mkName "" "NodeId") "ns=2;i=1001"]
           [elem "DisplayName" [] [Text "Simple"]] [CharData "next"]
           (mkFile "" 0 false) []);
    reflexivity.
Defined.

End DatatypesProperties.

(** ** Properties of the field normaliser *)

Module NormalizerProperties.
Import StringFacts Os ExtractDatatypes Normalizer NormalizerFacts Identifiers.

Lemma drop_digits_number (D : string) (c : ascii) (R : string) :
  all_digits D = true -> is_digit c = false ->
  drop_digits (D ++ String c R) = String c R.
Proof.
  intros HD Hc. induction D as [|d D IH]; cbn [String.append drop_digits].
  - now rewrite Hc.
  - cbn [all_digits] in HD. apply andb_prop in HD. destruct HD as [Hd HD].
    rewrite Hd. apply IH, HD.
Qed.

Lemma digits1_number (D : string) (c : ascii) (R : string) :
  is_number D = true -> is_digit c = false ->
  digits1 (D ++ String c R) = Some (String c R).
Proof.
  intros HD Hc. destruct D as [|d D]; [discriminate|].
  cbn [is_number all_digits] in HD. apply andb_prop in HD. destruct HD as [Hd HD].
  cbn [String.append digits1]. rewrite Hd.
  now rewrite drop_digits_number.
Qed.

Lemma cut_prefix_app (p r : string) : cut_prefix p (p ++ r) = Some r.
Proof.
  induction p as [|a p IH]; cbn [String.append cut_prefix]; [reflexivity|].
  now rewrite Ascii.eqb_refl.
Qed.

Lemma cut_prefix_Some (p s r : string) : cut_prefix p s = Some r -> s = p ++ r.
Proof.
  revert s. induction p as [|a p IH]; intros s H; cbn [cut_prefix] in H.
  - now injection H as ->.
  - destruct s as [|c s]; [discriminate|].
    destruct (Ascii.eqb_spec a c) as [->|]; [|discriminate].
    cbn [String.append]. f_equal. apply IH, H.
Qed.

Lemma drop_digits_suffix (s : string) : exists d, s = d ++ drop_digits s.
Proof.
  induction s as [|c s [d IH]]; cbn [drop_digits].
  - exists ""%string. reflexivity.
  - destruct (is_digit c).
    + exists (String c d). cbn [String.append]. now rewrite <- IH.
    + exists ""%string. reflexivity.
Qed.

Lemma digits1_suffix (s r : string) : digits1 s = Some r -> exists d, s = d ++ r.
Proof.
  destruct s as [|c s]; cbn [digits1]; [discriminate|].
  destruct (is_digit c); [|discriminate].
  intros H. injection H as <-. destruct (drop_digits_suffix s) as [d Hd].
  exists (String c d). cbn [String.append]. now rewrite <- Hd.
Qed.

Lemma reNamespace_remove_suffix (s : string) :
  exists pre, s = pre ++ reNamespace_remove s.
Proof.
  unfold reNamespace_remove.
  destruct (cut_prefix "ns=" s) as [r|] eqn:E1; [|exists ""%string; reflexivity].
  destruct (digits1 r) as [r'|] eqn:E2; [|exists ""%string; reflexivity].
  destruct (cut_prefix ";" r') as [rest|] eqn:E3; [|exists ""%string; reflexivity].
  apply cut_prefix_Some in E1, E3. apply digits1_suffix in E2. destruct E2 as [d E2].
  exists ("ns=" ++ d ++ ";")%string. subst s r r'.
  now rewrite !append_assoc.
Qed.

Lemma reNamespaceAndI_remove_suffix (s : string) :
  exists pre, s = pre ++ reNamespaceAndI_remove s.
Proof.
  unfold reNamespaceAndI_remove.
  destruct (cut_prefix "ns=" s) as [r|] eqn:E1; [|exists ""%string; reflexivity].
  destruct (digits1 r) as [r'|] eqn:E2; [|exists ""%string; reflexivity].
  destruct (cut_prefix ";i=" r') as [rest|] eqn:E3; [|exists ""%string; reflexivity].
  apply cut_prefix_Some in E1, E3. apply digits1_suffix in E2. destruct E2 as [d E2].
  exists ("ns=" ++ d ++ ";i=")%string. subst s r r'.
  now rewrite !append_assoc.
Qed.

Lemma Replace_app (a b : string) :
  Replace (a ++ b) dquote qq = Replace a dquote qq ++ Replace b dquote qq.
Proof.
  induction a as [|c a IH]; cbn [String.append Replace]; [reflexivity|].
  destruct (Ascii.eqb c dquote); rewrite IH.
  - now rewrite append_assoc.
  - reflexivity.
Qed.


(** X14: for a numeric identifier [ns=<number>;i=<rest>] the first pattern
    removes everything up to and including [i=]; the second pattern is
    applied to what is left, so a [rest] that itself starts with a name
    space prefix loses that prefix too. *)
Theorem numeric_identifier_is_stripped (D R label : string) :
  is_number D = true ->
  reNamespaceAndI_remove ("ns=" ++ D ++ ";i=" ++ R) = R
  /\ stripped_NodeId (mkUADataType ("ns=" ++ D ++ ";i=" ++ R) label)
     = reNamespace_remove R.
Proof.
  intros HD.
  assert (E : reNamespaceAndI_remove ("ns=" ++ D ++ ";i=" ++ R) = R).
  { unfold reNamespaceAndI_remove. rewrite cut_prefix_app.
    change (";i=" ++ R) with (String ";" ("i=" ++ R)).
    rewrite (digits1_number D ";" _ HD eq_refl).
    change (String ";" ("i=" ++ R)) with (";i=" ++ R).
    now rewrite cut_prefix_app. }
  split; [exact E|]. unfold stripped_NodeId. cbn [NodeId]. now rewrite E.
Qed.

Lemma numeric_identifier_witness :
  stripped_NodeId (mkUADataType ("ns=" ++ "12" ++ ";i=" ++ "ns=3;x") "L")
  = reNamespace_remove "ns=3;x".
Proof.
  apply (numeric_identifier_is_stripped "12" "ns=3;x" "L"). reflexivity.
Defined.

(** X15: for an identifier [ns=<number>;<rest>] whose [rest] does not start
    with [i=] (a string identifier [s=...], for one), exactly the prefix
    [ns=<number>;] is removed and [rest] is kept as it is. *)
Theorem other_identifier_keeps_its_kind (D R label : string) :
  is_number D = true ->
  cut_prefix "i=" R = None ->
  stripped_NodeId (mkUADataType ("ns=" ++ D ++ ";" ++ R) label) = R.
Proof.
  intros HD HR. unfold stripped_NodeId. cbn [NodeId].
  assert (E : reNamespaceAndI_remove ("ns=" ++ D ++ ";" ++ R) = "ns=" ++ D ++ ";" ++ R).
  { unfold reNamespaceAndI_remove. rewrite cut_prefix_app.
    change (";" ++ R) with (String ";" R).
    rewrite (digits1_number D ";" _ HD eq_refl).
    change (cut_prefix ";i=" (String ";" R)) with (cut_prefix "i=" R).
    now rewrite HR. }
  rewrite E. unfold reNamespace_remove. rewrite cut_prefix_app.
  change (";" ++ R) with (String ";" R).
  rewrite (digits1_number D ";" _ HD eq_refl). reflexivity.
Qed.

Lemma other_identifier_witness :
  stripped_NodeId (mkUADataType ("ns=" ++ "3" ++ ";" ++ "s=Demo") "L") = "s=Demo".
Proof.
  apply (other_identifier_keeps_its_kind "3" "s=Demo" "L"); reflexivity.
Defined.

(** X16: stripping only ever removes a prefix of the identifier: the
    stripped identifier is a final part of the identifier of the record. *)
Theorem stripped_identifier_is_a_suffix (node : UADataType) :
  exists pre, NodeId node = pre ++ stripped_NodeId node.
Proof.
  unfold stripped_NodeId.
  destruct (reNamespaceAndI_remove_suffix (NodeId node)) as [p1 H1].
  destruct (reNamespace_remove_suffix (reNamespaceAndI_remove (NodeId node)))
    as [p2 H2].
  exists (p1 ++ p2). rewrite append_assoc, <- H2. exact H1.
Qed.

(** X17: when label and identifier hold word characters only, nothing is
    stripped and nothing is quoted: the line is the label, a comma, the
    identifier and [,DataType]. *)
Theorem plain_record_line (label ident : string) :
  containsSpecialChars label = false ->
  containsSpecialChars ident = false ->
  outputLine (mkUADataType ident label) = label ++ "," ++ ident ++ ",DataType" ++ nl.
Proof.
  intros Hl Hi. unfold outputLine. rewrite normalizeFields_steps.
  unfold matched_DisplayName. rewrite (stripped_plain label ident Hi).
  rewrite (plain_no_quote ident Hi). cbn [andb DisplayName].
  now rewrite (csv_field_plain label Hl), (csv_field_plain ident Hi).
Qed.

Lemma plain_record_witness :
  outputLine (mkUADataType "1001" "Simple_Type") = "Simple_Type" ++ "," ++ "1001" ++ ",DataType" ++ nl.
Proof. apply (plain_record_line "Simple_Type" "1001"); reflexivity. Defined.

(** X18: when the stripped identifier holds a double quote and the label
    holds none, the label field is the label between three double quotes on
    either side: the label is put in quotes to match the identifier, these
    quotes are doubled, and the result is quoted as a CSV field. *)
Theorem label_of_quoted_identifier (node : UADataType) :
  ContainsRune (stripped_NodeId node) dquote = true ->
  ContainsRune (DisplayName node) dquote = false ->
  fst (normalizeFields node) = (q ++ q ++ q) ++ DisplayName node ++ (q ++ q ++ q).
Proof.
  intros Hi Hl. rewrite normalizeFields_steps. cbn [fst].
  unfold matched_DisplayName. rewrite Hi, Hl. cbn [andb negb].
  rewrite csv_field_special by reflexivity.
  unfold Sprintf_quoted. rewrite !Replace_app, (Replace_no_quote _ Hl).
  change (Replace q dquote qq) with (q ++ q).
  now rewrite !append_assoc.
Qed.

Lemma label_of_quoted_identifier_witness :
  fst (normalizeFields (mkUADataType ("ns=3;s=" ++ q ++ "Demo" ++ q) "Demo type"))
  = (q ++ q ++ q) ++ "Demo type" ++ (q ++ q ++ q).
Proof.
  apply (label_of_quoted_identifier
           (mkUADataType ("ns=3;s=" ++ q ++ "Demo" ++ q) "Demo type"));
    reflexivity.
Defined.



End NormalizerProperties.

